(** * telegram_digest: summarization-and-digest pipeline

    A shallow embedding of [telegram_digest.py]: the text normalizer, the
    local summarizer, the remote/local summarizer orchestration, the deep
    link builder, the unread-message collector, the notification
    renderer, the notification poster and the report renderer, followed by
    the properties the specification states about them and by further
    properties read off the code.

    Python [str] values are sequences of Unicode code points; they are
    modelled as [list N].  Python [int] values are modelled as [Z]. *)

From Stdlib Require Import Strings.String Strings.Ascii.
From Stdlib Require Import List NArith ZArith Bool Arith Lia.
From Stdlib Require DecimalPos DecimalZ.
From Stdlib Require Import Permutation.
Import ListNotations.

Local Open Scope N_scope.

(* ================================================================= *)
(** ** Python strings *)

Definition char := N.
Definition pystr := list char.

(** Decoding of a UTF-8 literal of this file into code points, so that the
    string constants of the source can be written as they appear there. *)
Fixpoint utf8_go (need : nat) (acc : N) (s : string) : pystr :=
  match s with
  | EmptyString => []
  | String a rest =>
      let b := N_of_ascii a in
      match need with
      | O =>
          if b <? 128 then b :: utf8_go 0 0 rest
          else if b <? 224 then utf8_go 1 (b - 192) rest
          else if b <? 240 then utf8_go 2 (b - 224) rest
          else utf8_go 3 (b - 240) rest
      | S k =>
          let acc' := acc * 64 + (b - 128) in
          match k with
          | O => acc' :: utf8_go 0 0 rest
          | S _ => utf8_go k acc' rest
          end
      end
  end.

Definition utf8 (s : string) : pystr := utf8_go 0 0 s.

Definition pystr_eqb (a b : pystr) : bool :=
  if list_eq_dec N.eq_dec a b then true else false.

(** Truthiness of a [str]: the empty string is falsy. *)
Definition nonempty (s : pystr) : bool :=
  match s with [] => false | _ :: _ => true end.

(** Truthiness of an [Optional[str]]: [None] and [""] are falsy. *)
Definition truthy (o : option pystr) : bool :=
  match o with Some (_ :: _) => true | _ => false end.

(** [o or ""] *)
Definition or_empty (o : option pystr) : pystr :=
  match o with Some s => s | None => [] end.

(** [str.isspace] on one character, which is also the class [\s] of [re]
    on [str] patterns. *)
Definition is_space (c : char) : bool :=
  ((9 <=? c) && (c <=? 13)) || ((28 <=? c) && (c <=? 32))
  || (c =? 133) || (c =? 160) || (c =? 5760)
  || ((8192 <=? c) && (c <=? 8202))
  || (c =? 8232) || (c =? 8233) || (c =? 8239) || (c =? 8287)
  || (c =? 12288).

Fixpoint drop_while (p : char -> bool) (s : pystr) : pystr :=
  match s with
  | [] => []
  | c :: t => if p c then drop_while p t else s
  end.

Fixpoint take_while (p : char -> bool) (s : pystr) : pystr :=
  match s with
  | [] => []
  | c :: t => if p c then c :: take_while p t else []
  end.

(** [str.lstrip], [str.rstrip] and [str.strip], for a class of characters. *)
Definition lstrip_by (p : char -> bool) (s : pystr) : pystr := drop_while p s.
Definition rstrip_by (p : char -> bool) (s : pystr) : pystr :=
  rev (drop_while p (rev s)).
Definition strip_by (p : char -> bool) (s : pystr) : pystr :=
  rstrip_by p (lstrip_by p s).

(** [s.strip()] *)
Definition strip (s : pystr) : pystr := strip_by is_space s.

(** [s.strip(chars)] *)
Definition strip_chars (chars : pystr) (s : pystr) : pystr :=
  strip_by (fun c => existsb (N.eqb c) chars) s.

(** [sep.join(parts)] *)
Fixpoint join (sep : pystr) (parts : list pystr) : pystr :=
  match parts with
  | [] => []
  | [x] => x
  | x :: rest => x ++ sep ++ join sep rest
  end.

(** [s.split(sep)] for a one-character separator. *)
Fixpoint split_on (sep : char) (s : pystr) : list pystr :=
  match s with
  | [] => [[]]
  | c :: t =>
      if c =? sep then [] :: split_on sep t
      else match split_on sep t with
           | h :: r => (c :: h) :: r
           | [] => [[c]]
           end
  end.

(** [s.startswith(p)] *)
Fixpoint startswith (p s : pystr) : bool :=
  match p, s with
  | [], _ => true
  | a :: p', b :: s' => (a =? b) && startswith p' s'
  | _ :: _, [] => false
  end.

(** [s.replace(old, new)] for a one-character [old]. *)
Definition replace_char (old : char) (new : pystr) (s : pystr) : pystr :=
  flat_map (fun c => if c =? old then new else [c]) s.

(** [l[:n]] for an [int] bound: a negative bound counts from the end. *)
Definition slice_to {A} (n : Z) (l : list A) : list A :=
  if (n <? 0)%Z then firstn (length l - Z.to_nat (- n)) l
  else firstn (Z.to_nat n) l.

(** [str(n)] for an [int]. *)
Definition digit_char (d : N) : char := 48 + d.

Fixpoint uint_chars (u : Decimal.uint) : pystr :=
  match u with
  | Decimal.Nil => []
  | Decimal.D0 r => digit_char 0 :: uint_chars r
  | Decimal.D1 r => digit_char 1 :: uint_chars r
  | Decimal.D2 r => digit_char 2 :: uint_chars r
  | Decimal.D3 r => digit_char 3 :: uint_chars r
  | Decimal.D4 r => digit_char 4 :: uint_chars r
  | Decimal.D5 r => digit_char 5 :: uint_chars r
  | Decimal.D6 r => digit_char 6 :: uint_chars r
  | Decimal.D7 r => digit_char 7 :: uint_chars r
  | Decimal.D8 r => digit_char 8 :: uint_chars r
  | Decimal.D9 r => digit_char 9 :: uint_chars r
  end.

Definition str_of_int (z : Z) : pystr :=
  match Z.to_int z with
  | Decimal.Pos u => uint_chars u
  | Decimal.Neg u => 45 :: uint_chars u
  end.

(* ================================================================= *)
(** ** The two regular expressions of the source

    [re.sub] and [re.split] scan the subject from left to right; at each
    position the pattern is tried and, when it matches, the scan resumes
    after the match.  A pattern is given by its matcher: from the character
    before the position (for the look-behind) and the rest of the subject,
    the length of the match at this position.  Both patterns of the source
    match at least one character, so a length of zero stands for no match. *)

Definition matcher := option char -> pystr -> option nat.

Fixpoint sub_go (m : matcher) (repl : pystr) (prev : option char)
    (skip : nat) (s : pystr) : pystr :=
  match s with
  | [] => []
  | c :: rest =>
      match skip with
      | S k => sub_go m repl (Some c) k rest
      | O =>
          match m prev s with
          | Some (S k) => repl ++ sub_go m repl (Some c) k rest
          | _ => c :: sub_go m repl (Some c) 0 rest
          end
      end
  end.

(** [re.sub(pattern, repl, s)] *)
Definition re_sub (m : matcher) (repl s : pystr) : pystr :=
  sub_go m repl None 0 s.

Fixpoint split_go (m : matcher) (prev : option char) (skip : nat)
    (cur : pystr) (s : pystr) : list pystr :=
  match s with
  | [] => [rev cur]
  | c :: rest =>
      match skip with
      | S k => split_go m (Some c) k cur rest
      | O =>
          match m prev s with
          | Some (S k) => rev cur :: split_go m (Some c) k [] rest
          | _ => split_go m (Some c) 0 (c :: cur) rest
          end
      end
  end.

(** [re.split(pattern, s)] for a pattern without groups; [cur] holds the
    current piece, last character first. *)
Definition re_split (m : matcher) (s : pystr) : list pystr :=
  split_go m None 0 [] s.

(** [\s+] : the longest run of whitespace at the position. *)
Definition ws_plus : matcher :=
  fun _ s =>
    match length (take_while is_space s) with
    | O => None
    | n => Some n
    end.

(** The characters of the look-behind class [[.!?。！？]]. *)
Definition is_sentence_end (c : char) : bool :=
  existsb (N.eqb c) (utf8 ".!?。！？").

Definition after_sentence_end (prev : option char) : bool :=
  match prev with Some c => is_sentence_end c | None => false end.

(** [(?<=[.!?。！？])\s+|\n+] : the first alternative is tried first. *)
Definition sentence_break : matcher :=
  fun prev s =>
    match after_sentence_end prev, length (take_while is_space s) with
    | true, S n => Some (S n)
    | _, _ =>
        match length (take_while (N.eqb 10) s) with
        | O => None
        | k => Some k
        end
    end.

(* ================================================================= *)
(** ** Text normalizer and local summarizer *)

Definition normalize_text (text : option pystr) : pystr :=
  re_sub ws_plus (utf8 " ") (strip (or_empty text)).

Definition BULLET : pystr := utf8 "• ".
Definition NEWLINE : pystr := utf8 (String "010" EmptyString).

Definition summarize_locally (text : pystr) (max_sentences : Z) : pystr :=
  let chunks := re_split sentence_break text in
  let filtered :=
    map (strip_chars (utf8 " -•"))
        (filter (fun chunk => (15 <? length (strip chunk))%nat) chunks) in
  let filtered :=
    match filtered with
    | [] => [firstn 240 text]
    | _ :: _ => filtered
    end in
  let selected := slice_to max_sentences filtered in
  join NEWLINE
       (map (fun s => BULLET ++ firstn 220 s) selected).

Definition summarize_locally_default (text : pystr) : pystr :=
  summarize_locally text 3.


(* ================================================================= *)
(** ** Effects: the remote service, the log, exceptions

    The source raises and catches exceptions, posts HTTP requests and
    writes to a logger.  A computation is a function from the trace of
    events so far to a result (a value, or a raised exception) and the
    extended trace. *)

(** The exceptions the remote call raises; all derive from [Exception]. *)
Inductive exn : Type :=
| ConnectionError            (* requests.post: no response in time *)
| HTTPError (status : Z)     (* response.raise_for_status *)
| JSONDecodeError            (* response.json *)
| LookupError                (* payload["choices"][0]["message"]["content"] *)
| AttributeError.            (* .strip() on a null content *)

Record request : Type := {
  url : pystr;
  authorization : pystr;
  req_model : pystr;
  system_content : pystr;
  user_content : pystr;
  timeout : Z
}.

(** What the body of a response holds at
    [choices[0].message.content]. *)
Inductive body : Type :=
| NotJSON
| NoContentField
| NullContent
| Content (s : pystr).

Record response : Type := {
  status_code : Z;
  payload : body
}.

Inductive net_outcome : Type :=
| Unreachable
| Responded (r : response).

Inductive event : Type :=
| Requested (r : request)
| Warned (e : exn)
| Informed (title : pystr) (unread : Z).

Definition trace := list event.

Inductive result (A : Type) : Type :=
| Returned (a : A)
| Raised (e : exn).
Arguments Returned {A} a.
Arguments Raised {A} e.

Definition M (A : Type) : Type := trace -> result A * trace.

Definition ret {A} (a : A) : M A := fun w => (Returned a, w).

Definition raise {A} (e : exn) : M A := fun w => (Raised e, w).

Definition bind {A B} (c : M A) (k : A -> M B) : M B :=
  fun w =>
    match c w with
    | (Returned a, w') => k a w'
    | (Raised e, w') => (Raised e, w')
    end.

(** [try: body  except Exception as exc: handler] *)
Definition try_except {A} (c : M A) (handler : exn -> M A) : M A :=
  fun w =>
    match c w with
    | (Returned a, w') => (Returned a, w')
    | (Raised e, w') => handler e w'
    end.

Definition emit (e : event) : M unit := fun w => (Returned tt, w ++ [e]).

Declare Scope monad_scope.
Delimit Scope monad_scope with monad.
Notation "x <- c ;; k" := (bind c (fun x => k))
  (at level 61, c at next level, right associativity) : monad_scope.
Notation "c ;; k" := (bind c (fun _ => k))
  (at level 61, right associativity) : monad_scope.
Local Open Scope monad_scope.

(** [for x in l: state = body(state, x)] *)
Fixpoint for_each {A S} (l : list A) (body : S -> A -> M S) (s : S) : M S :=
  match l with
  | [] => ret s
  | x :: rest => s' <- body s x ;; for_each rest body s'
  end.

Definition is_request (e : event) : bool :=
  match e with Requested _ => true | _ => false end.

(** Number of requests sent to the remote service so far. *)
Definition requests_made (w : trace) : nat := length (filter is_request w).

(* ================================================================= *)
(** ** Summarizer *)

Record Summarizer : Type := {
  api_key : option pystr;
  base_url : pystr;
  model : pystr
}.

Definition NO_TEXT : pystr := utf8 "(텍스트 없음)".

Record DigestItem : Type := {
  channel_title : pystr;
  channel_id : Z;
  message_id : Z;
  date : pystr;
  text : pystr;
  summary : pystr;
  message_link : pystr
}.

Record Channel : Type := {
  chan_id : Z;
  chan_username : option pystr
}.

Record Message : Type := {
  msg_id : Z;
  msg_unread : bool;
  msg_message : option pystr;
  msg_raw_text : option pystr;
  msg_date : Z
}.

Inductive Entity : Type :=
| EntChannel (c : Channel)
| EntOther.

Record Dialog : Type := {
  dlg_entity : Entity;
  dlg_title : pystr;
  dlg_unread_count : Z
}.

(** The messaging-platform client, as the collector uses it: the dialogs
    in the order the platform lists them, and for a channel and a limit the
    messages it yields. *)
Record TelegramClient : Type := {
  iter_dialogs : list Dialog;
  iter_messages : Channel -> Z -> list Message
}.

Section Pipeline.
(** The remote service: its answer to a request, given how many requests
    were sent before. *)
Variable net : nat -> request -> net_outcome.
(** The process environment, [os.getenv]. *)
Variable getenv : pystr -> option pystr.
(** [date.astimezone().strftime("%Y-%m-%d %H:%M")] *)
Variable strftime_local : Z -> pystr.

Definition getenv_default (name default : pystr) : pystr :=
  match getenv name with Some v => v | None => default end.

(** [Summarizer.__init__] *)
Definition Summarizer_init (model_arg : option pystr) : Summarizer :=
  {| api_key := getenv (utf8 "OPENAI_API_KEY");
     base_url := getenv_default (utf8 "OPENAI_BASE_URL")
                                (utf8 "https://api.openai.com/v1");
     model := if truthy model_arg then or_empty model_arg
              else getenv_default (utf8 "OPENAI_MODEL") (utf8 "gpt-4o-mini") |}.

(** [requests.post(...)] *)
Definition requests_post (req : request) : M response :=
  fun w =>
    match net (requests_made w) req with
    | Unreachable => (Raised ConnectionError, w ++ [Requested req])
    | Responded r => (Returned r, w ++ [Requested req])
    end.

(** [response.raise_for_status()] *)
Definition raise_for_status (r : response) : M unit :=
  if ((400 <=? status_code r) && (status_code r <? 600))%Z
  then raise (HTTPError (status_code r))
  else ret tt.

(** [response.json()["choices"][0]["message"]["content"].strip()] *)
Definition content_of (r : response) : M pystr :=
  match payload r with
  | NotJSON => raise JSONDecodeError
  | NoContentField => raise LookupError
  | NullContent => raise AttributeError
  | Content s => ret (strip s)
  end.

Definition _summarize_remote (self : Summarizer) (text : pystr) : M pystr :=
  let prompt :=
    utf8 "아래 텔레그램 메시지를 2~3개 핵심 bullet로 한국어 요약하세요. "
    ++ utf8 "중요한 수치/일정/행동요청을 우선 반영하고 400자 이내로 작성하세요."
    ++ NEWLINE ++ NEWLINE
    ++ utf8 "메시지:" ++ NEWLINE ++ text in
  response <- requests_post
    {| url := rstrip_by (N.eqb 47) (base_url self) ++ utf8 "/chat/completions";
       authorization := utf8 "Bearer " ++ or_empty (api_key self);
       req_model := model self;
       system_content := utf8 "너는 텔레그램 뉴스레터 에디터다.";
       user_content := prompt;
       timeout := 30 |} ;;
  raise_for_status response ;;
  content_of response.

Definition summarize (self : Summarizer) (text : pystr) : M pystr :=
  let cleaned := normalize_text (Some text) in
  if negb (nonempty cleaned) then ret NO_TEXT
  else
    remote <-
      (if truthy (api_key self)
       then try_except
              (v <- _summarize_remote self cleaned ;; ret (Some v))
              (fun exc => emit (Warned exc) ;; ret None)
       else ret None) ;;
    match remote with
    | Some v => ret v
    | None => ret (summarize_locally cleaned 3)
    end.

(* --------------------------------------------------------------- *)
(** *** Deep links and the collector *)

Definition build_message_link (channel : Channel) (message_id : Z) : pystr :=
  if truthy (chan_username channel)
  then utf8 "https://t.me/" ++ or_empty (chan_username channel)
       ++ utf8 "/" ++ str_of_int message_id
  else
    let channel_id := Z.abs (chan_id channel) in
    let channel_id_str := str_of_int channel_id in
    let internal_id :=
      if startswith (utf8 "100") channel_id_str
      then skipn 3 channel_id_str
      else channel_id_str in
    utf8 "https://t.me/c/" ++ internal_id ++ utf8 "/" ++ str_of_int message_id.

(** [a or b or ""] *)
Definition first_truthy (a b : option pystr) : pystr :=
  if truthy a then or_empty a
  else if truthy b then or_empty b
  else [].

Definition fetch_unread_messages (client : TelegramClient) (limit : Z)
  : M (list DigestItem) :=
  let summarizer := Summarizer_init None in
  for_each (iter_dialogs client)
    (fun result dialog =>
       match dlg_entity dialog with
       | EntOther => ret result
       | EntChannel entity =>
           if (dlg_unread_count dialog <=? 0)%Z then ret result
           else
             emit (Informed (dlg_title dialog) (dlg_unread_count dialog)) ;;
             let count := Z.min (dlg_unread_count dialog) limit in
             let messages :=
               filter (fun msg =>
                         msg_unread msg
                         && (truthy (msg_message msg)
                             || truthy (msg_raw_text msg)))
                      (iter_messages client entity count) in
             let messages := rev messages in
             for_each messages
               (fun result msg =>
                  let text := first_truthy (msg_raw_text msg)
                                           (msg_message msg) in
                  summary <- summarize summarizer text ;;
                  ret (result ++
                       [{| channel_title := dlg_title dialog;
                           channel_id := chan_id entity;
                           message_id := msg_id msg;
                           date := strftime_local (msg_date msg);
                           text := text;
                           summary := summary;
                           message_link :=
                             build_message_link entity (msg_id msg) |}]))
               result
       end)
    [].
End Pipeline.

(* ================================================================= *)
(** ** Notification rendering *)

(** [html.escape(s)] with [quote=True]: five replacements, [&] first. *)
Definition html_escape (s : pystr) : pystr :=
  let s := replace_char 38 (utf8 "&amp;") s in
  let s := replace_char 60 (utf8 "&lt;") s in
  let s := replace_char 62 (utf8 "&gt;") s in
  let s := replace_char 34 (utf8 "&quot;") s in
  replace_char 39 (utf8 "&#x27;") s.

Definition QUOTE : pystr := [34].

(** [enumerate(l, start)] *)
Fixpoint enumerate {A} (start : Z) (l : list A) : list (Z * A) :=
  match l with
  | [] => []
  | x :: rest => (start, x) :: enumerate (start + 1) rest
  end.

(** A [defaultdict(list)] keeps its keys in the order they were first
    used; [grouped[key].append(item)] leaves the position of an existing
    key unchanged and puts a new key last. *)
Definition groups := list (pystr * list DigestItem).

Fixpoint grouped_append (grouped : groups) (key : pystr) (item : DigestItem)
  : groups :=
  match grouped with
  | [] => [(key, [item])]
  | (k, v) :: rest =>
      if pystr_eqb k key then (k, v ++ [item]) :: rest
      else (k, v) :: grouped_append rest key item
  end.

Definition NO_UNREAD : pystr := utf8 "📭 안 읽은 채널 메시지가 없습니다.".

Definition build_digest_message (items : list DigestItem) (max_items : Z)
  : pystr :=
  match items with
  | [] => NO_UNREAD
  | _ :: _ =>
      let grouped :=
        fold_left (fun grouped item =>
                     grouped_append grouped (channel_title item) item)
                  (slice_to max_items items) [] in
      let lines := [utf8 "🧾 <b>안 읽은 채널 요약</b>"] in
      let lines :=
        fold_left
          (fun lines (entry : pystr * list DigestItem) =>
             let (channel, channel_items) := entry in
             let lines :=
               lines ++ [NEWLINE ++ utf8 "📌 <b>" ++ html_escape channel
                         ++ utf8 "</b>"] in
             fold_left
               (fun lines (p : Z * DigestItem) =>
                  let (idx, item) := p in
                  let lines :=
                    lines ++ [str_of_int idx ++ utf8 ") "
                              ++ html_escape (summary item)] in
                  lines ++ [utf8 "🔗 <a href=" ++ QUOTE ++ message_link item
                            ++ QUOTE ++ utf8 ">원문 링크</a>"])
               (enumerate 1 channel_items) lines)
          grouped lines in
      let lines :=
        if (Z.of_nat (length items) >? max_items)%Z
        then lines ++ [NEWLINE ++ utf8 "…외 "
                       ++ str_of_int (Z.of_nat (length items) - max_items)
                       ++ utf8 "건은 HTML/JSON 파일을 확인하세요."]
        else lines in
      join NEWLINE lines
  end.

(** The default of the source for [max_items]. *)
Definition build_digest_message_default (items : list DigestItem) : pystr :=
  build_digest_message items 20.

(* ================================================================= *)
(** ** Posting the notification *)

(** The exceptions of [post_via_bot]. *)
Inductive bot_exn : Type :=
| ValueError (message : pystr)
| BotConnectionError           (* requests.post: no response in time *)
| BotHTTPError (status : Z).   (* resp.raise_for_status *)

(** The request to the notification endpoint. *)
Record bot_request : Type := {
  bot_url : pystr;
  bot_chat_id : pystr;
  bot_text : pystr;
  bot_parse_mode : pystr;
  bot_disable_web_page_preview : bool;
  bot_timeout : Z
}.

Inductive bot_outcome : Type :=
| BotUnreachable
| BotResponded (status : Z).

Inductive bot_result : Type :=
| BotDone
| BotRaised (e : bot_exn).

(** [post_via_bot(message)]: from the requests sent so far to the outcome
    and the requests sent after the call.  [bot_net] is the answer of the
    endpoint to a request, given how many were sent before. *)
Definition post_via_bot (getenv : pystr -> option pystr)
    (bot_net : nat -> bot_request -> bot_outcome) (message : pystr)
    (sent : list bot_request) : bot_result * list bot_request :=
  let token := getenv (utf8 "TG_BOT_TOKEN") in
  let chat_id := getenv (utf8 "TG_TARGET_CHAT_ID") in
  if negb (truthy token) || negb (truthy chat_id)
  then (BotRaised
          (ValueError
             (utf8 "TG_BOT_TOKEN and TG_TARGET_CHAT_ID are required for --post")),
        sent)
  else
    let req :=
      {| bot_url := utf8 "https://api.telegram.org/bot" ++ or_empty token
                    ++ utf8 "/sendMessage";
         bot_chat_id := or_empty chat_id;
         bot_text := message;
         bot_parse_mode := utf8 "HTML";
         bot_disable_web_page_preview := true;
         bot_timeout := 20 |} in
    match bot_net (length sent) req with
    | BotUnreachable => (BotRaised BotConnectionError, sent ++ [req])
    | BotResponded status =>
        if ((400 <=? status) && (status <? 600))%Z
        then (BotRaised (BotHTTPError status), sent ++ [req])
        else (BotDone, sent ++ [req])
    end.

(* ================================================================= *)
(** ** Report rendering *)

(** The literal parts of the card template, between its fields. *)
Definition CARD_PART_0 : pystr :=
  NEWLINE
  ++ utf8 "            <article class="
  ++ QUOTE
  ++ utf8 "card"
  ++ QUOTE
  ++ utf8 "> "
  ++ NEWLINE
  ++ utf8 "              <header>"
  ++ NEWLINE
  ++ utf8 "                <h3>".

Definition CARD_PART_1 : pystr :=
  utf8 "</h3>"
  ++ NEWLINE
  ++ utf8 "                <p>".

Definition CARD_PART_2 : pystr :=
  utf8 "</p>"
  ++ NEWLINE
  ++ utf8 "              </header>"
  ++ NEWLINE
  ++ utf8 "              <p><strong>요약</strong><br>".

Definition CARD_PART_3 : pystr :=
  utf8 "</p>"
  ++ NEWLINE
  ++ utf8 "              <details>"
  ++ NEWLINE
  ++ utf8 "                <summary>원문 보기</summary>"
  ++ NEWLINE
  ++ utf8 "                <pre>".

Definition CARD_PART_4 : pystr :=
  utf8 "</pre>"
  ++ NEWLINE
  ++ utf8 "              </details>"
  ++ NEWLINE
  ++ utf8 "              <a href="
  ++ QUOTE.

Definition CARD_PART_5 : pystr :=
  QUOTE
  ++ utf8 " target="
  ++ QUOTE
  ++ utf8 "_blank"
  ++ QUOTE
  ++ utf8 ">원본 링크 열기</a>"
  ++ NEWLINE
  ++ utf8 "            </article>"
  ++ NEWLINE
  ++ utf8 "            ".

(** The literal parts of the page template, around the generation time
    and the body. *)
Definition PAGE_PART_0 : pystr :=
  NEWLINE
  ++ utf8 "<!doctype html>"
  ++ NEWLINE
  ++ utf8 "<html lang="
  ++ QUOTE
  ++ utf8 "ko"
  ++ QUOTE
  ++ utf8 ">"
  ++ NEWLINE
  ++ utf8 "<head>"
  ++ NEWLINE
  ++ utf8 "  <meta charset="
  ++ QUOTE
  ++ utf8 "utf-8"
  ++ QUOTE
  ++ utf8 ">"
  ++ NEWLINE
  ++ utf8 "  <meta name="
  ++ QUOTE
  ++ utf8 "viewport"
  ++ QUOTE
  ++ utf8 " content="
  ++ QUOTE
  ++ utf8 "width=device-width, initial-scale=1"
  ++ QUOTE
  ++ utf8 ">"
  ++ NEWLINE
  ++ utf8 "  <title>Telegram Unread Digest</title>"
  ++ NEWLINE
  ++ utf8 "  <style>"
  ++ NEWLINE
  ++ utf8 "    body { font-family: -apple-system, BlinkMacSystemFont, 'Segoe UI', sans-serif; margin: 2rem; background:#f5f7fb; }"
  ++ NEWLINE
  ++ utf8 "    .grid { display:grid; gap:1rem; }"
  ++ NEWLINE
  ++ utf8 "    .card { background:#fff; border-radius:12px; padding:1rem 1.2rem; box-shadow:0 2px 6px rgba(0,0,0,0.08); }"
  ++ NEWLINE
  ++ utf8 "    h1 { margin-top:0; }"
  ++ NEWLINE
  ++ utf8 "    pre { white-space: pre-wrap; word-wrap: break-word; background:#fafafa; padding:0.7rem; border-radius:8px; }"
  ++ NEWLINE
  ++ utf8 "    a { color:#0b6bcb; text-decoration:none; }"
  ++ NEWLINE
  ++ utf8 "  </style>"
  ++ NEWLINE
  ++ utf8 "</head>"
  ++ NEWLINE
  ++ utf8 "<body>"
  ++ NEWLINE
  ++ utf8 "  <h1>안 읽은 텔레그램 채널 요약</h1>"
  ++ NEWLINE
  ++ utf8 "  <p>생성 시각: ".

Definition PAGE_PART_1 : pystr :=
  utf8 "</p>"
  ++ NEWLINE
  ++ utf8 "  <section class="
  ++ QUOTE
  ++ utf8 "grid"
  ++ QUOTE
  ++ utf8 ">".

Definition PAGE_PART_2 : pystr :=
  utf8 "</section>"
  ++ NEWLINE
  ++ utf8 "</body>"
  ++ NEWLINE
  ++ utf8 "</html>"
  ++ NEWLINE.

Definition NO_CARDS : pystr := utf8 "<p>안 읽은 채널 메시지가 없습니다.</p>".

(** One card of the report: the filled template, stripped. *)
Definition render_card (item : DigestItem) : pystr :=
  strip (CARD_PART_0 ++ html_escape (channel_title item)
         ++ CARD_PART_1 ++ date item
         ++ CARD_PART_2
         ++ replace_char 10 (utf8 "<br>") (html_escape (summary item))
         ++ CARD_PART_3 ++ html_escape (text item)
         ++ CARD_PART_4 ++ message_link item
         ++ CARD_PART_5).

(** [render_html(items)]; [generated] is the formatted time of the clock
    at the call, [dt.datetime.now().strftime("%Y-%m-%d %H:%M:%S")]. *)
Definition render_html (items : list DigestItem) (generated : pystr) : pystr :=
  let cards := map render_card items in
  let body :=
    match join NEWLINE cards with
    | [] => NO_CARDS
    | _ :: _ => join NEWLINE cards
    end in
  strip (PAGE_PART_0 ++ generated ++ PAGE_PART_1 ++ body ++ PAGE_PART_2).
(* ================================================================= *)
(** ** Shape predicates on strings *)

(** The string begins with a whitespace character. *)
Definition starts_with_space (s : pystr) : bool :=
  match s with c :: _ => is_space c | [] => false end.

(** The string ends with a whitespace character. *)
Definition ends_with_space (s : pystr) : bool :=
  starts_with_space (rev s).

(** Two whitespace characters stand next to each other somewhere. *)
Fixpoint has_adjacent_spaces (s : pystr) : bool :=
  match s with
  | a :: (b :: _) as t => (is_space a && is_space b) || has_adjacent_spaces t
  | _ => false
  end.

(** Every whitespace character is U+0020 and is followed by a character
    that is not whitespace. *)
Fixpoint single_spaced (s : pystr) : bool :=
  match s with
  | [] => true
  | c :: t =>
      (if is_space c
       then (c =? 32) && match t with
                         | d :: _ => negb (is_space d)
                         | [] => false
                         end
       else true) && single_spaced t
  end.

(** What [re.sub(r"\s+", " ", s)] computes, as a recursion on [s] alone:
    [inrun] tells that the previous character was whitespace. *)
Fixpoint squeeze (inrun : bool) (s : pystr) : pystr :=
  match s with
  | [] => []
  | c :: t =>
      if is_space c
      then if inrun then squeeze true t else 32 :: squeeze true t
      else c :: squeeze false t
  end.


(** The lines of a text, as [text.split("\n")] gives them. *)
Definition text_lines (s : pystr) : list pystr := split_on 10 s.


(** The fragments the local summarizer selects, before they are rendered. *)
Definition selected_fragments (text : pystr) (max_sentences : Z) : list pystr :=
  let chunks := re_split sentence_break text in
  let filtered :=
    map (strip_chars (utf8 " -•"))
        (filter (fun chunk => (15 <? length (strip chunk))%nat) chunks) in
  let filtered :=
    match filtered with
    | [] => [firstn 240 text]
    | _ :: _ => filtered
    end in
  slice_to max_sentences filtered.


(* ----------------------------------------------------------------- *)
(** *** The notification, line by line *)

(** [x in s] for strings. *)
Fixpoint contains (s x : pystr) : bool :=
  startswith x s
  || match s with
     | [] => false
     | _ :: t => contains t x
     end.

Definition HEADER : pystr := utf8 "🧾 <b>안 읽은 채널 요약</b>".

Definition heading_line (channel : pystr) : pystr :=
  NEWLINE ++ utf8 "📌 <b>" ++ html_escape channel ++ utf8 "</b>".

Definition summary_line (idx : Z) (item : DigestItem) : pystr :=
  str_of_int idx ++ utf8 ") " ++ html_escape (summary item).

(** The anchor around a link text [href]. *)
Definition anchor (href : pystr) : pystr :=
  utf8 "🔗 <a href=" ++ QUOTE ++ href ++ QUOTE ++ utf8 ">원문 링크</a>".

Definition link_line (item : DigestItem) : pystr :=
  anchor (message_link item).

Definition omitted_note (n : Z) : pystr :=
  NEWLINE ++ utf8 "…외 " ++ str_of_int n
  ++ utf8 "건은 HTML/JSON 파일을 확인하세요.".

Definition item_lines (p : Z * DigestItem) : list pystr :=
  [summary_line (fst p) (snd p); link_line (snd p)].

Definition render_group (g : pystr * list DigestItem) : list pystr :=
  heading_line (fst g) :: flat_map item_lines (enumerate 1 (snd g)).

(** The distinct titles of a sequence, each at the place of its first
    occurrence. *)
Fixpoint first_seen (l : list pystr) : list pystr :=
  match l with
  | [] => []
  | t :: rest => t :: filter (fun u => negb (pystr_eqb u t)) (first_seen rest)
  end.

Definition has_title (t : pystr) (item : DigestItem) : bool :=
  pystr_eqb (channel_title item) t.

(** The groups of a sequence of items: one per distinct title, in
    first-seen order, each holding the items of that title in their incoming
    order. *)
Definition groups_by_title (l : list DigestItem) : groups :=
  map (fun t => (t, filter (has_title t) l)) (first_seen (map channel_title l)).

(** The lines of the notification for a sequence of items, without the
    trailing note. *)
Definition digest_lines (l : list DigestItem) : list pystr :=
  HEADER :: flat_map render_group (groups_by_title l).

(** No character of the string opens or closes a tag or an attribute
    value. *)
Definition markup_free (s : pystr) : bool :=
  forallb (fun c => negb ((c =? 60) || (c =? 62) || (c =? 34) || (c =? 39))) s.

(** Each rendered item's link stands HTML-escaped in the notification. *)
Definition links_rendered_escaped (items : list DigestItem) (max_items : Z)
  : Prop :=
  forall item, In item (slice_to max_items items) ->
    contains (build_digest_message items max_items)
             (anchor (html_escape (message_link item))) = true.

(** Items for the examples. *)
Definition sample_item (title : string) (cid mid : Z) (summ link : string)
  : DigestItem :=
  {| channel_title := utf8 title; channel_id := cid; message_id := mid;
     date := utf8 "2024-01-01 09:00"; text := utf8 summ;
     summary := utf8 summ; message_link := utf8 link |}.

(** Three items of two titles; the first and the last share the title but
    not the channel id. *)
Definition sample_items : list DigestItem :=
  [ sample_item "A" 1 10 "first" "https://t.me/a/10";
    sample_item "B" 2 20 "second" "https://t.me/b/20";
    sample_item "A" 3 30 "third" "https://t.me/c/3/30" ].

(** Twenty-five items that alternate between two titles. *)
Definition many_items : list DigestItem :=
  map (fun i => sample_item (if Nat.even i then "A" else "B")
                            (Z.of_nat i) (Z.of_nat i) "s" "https://t.me/x/1")
      (seq 0 25).

(** An item whose summary and link both hold markup. *)
Definition markup_item : DigestItem :=
  sample_item "News" 1 1 "<script>alert(1)</script>" "https://t.me/x/1?a=<b>&c".

(* ----------------------------------------------------------------- *)
(** *** Remote services and clients for the examples *)

(** A service that never answers. *)
Definition down_net : nat -> request -> net_outcome :=
  fun _ _ => Unreachable.

(** A service that answers every request with status 200 and the given
    completion. *)
Definition reply_net (completion : pystr) : nat -> request -> net_outcome :=
  fun _ _ => Responded {| status_code := 200; payload := Content completion |}.

Definition sample_summarizer : Summarizer :=
  {| api_key := Some (utf8 "sk-test");
     base_url := utf8 "https://api.openai.com/v1/";
     model := utf8 "gpt-4o-mini" |}.

(** An environment that holds a credential for the remote service. *)
Definition key_env : pystr -> option pystr :=
  fun name => if pystr_eqb name (utf8 "OPENAI_API_KEY")
              then Some (utf8 "sk-test") else None.

Definition sample_strftime : Z -> pystr := fun _ => utf8 "2024-01-01 09:00".

(** A client with one channel that holds one unread message. *)
Definition one_message_client : TelegramClient :=
  {| iter_dialogs :=
       [ {| dlg_entity := EntChannel {| chan_id := 1005;
                                        chan_username := Some (utf8 "news") |};
            dlg_title := utf8 "News";
            dlg_unread_count := 1 |} ];
     iter_messages := fun _ _ =>
       [ {| msg_id := 7; msg_unread := true;
            msg_message := Some (utf8 "Rates were cut today.");
            msg_raw_text := Some (utf8 "Rates were cut today.");
            msg_date := 0 |} ] |}.

(** Every item a run produces has a summary that is not empty. *)
Definition summaries_never_empty
    (net : nat -> request -> net_outcome) (getenv : pystr -> option pystr)
    (strftime_local : Z -> pystr) (client : TelegramClient) (limit : Z)
  : Prop :=
  forall w items w',
    fetch_unread_messages net getenv strftime_local client limit w
    = (Returned items, w') ->
    Forall (fun item => summary item <> []) items.

(** The remote service never succeeds with a blank completion. *)
Definition completions_not_blank (net : nat -> request -> net_outcome) : Prop :=
  forall n req r s,
    net n req = Responded r ->
    ((400 <=? status_code r) && (status_code r <? 600))%Z = false ->
    payload r = Content s ->
    strip s <> [].

(* ----------------------------------------------------------------- *)
(** *** Further notions *)

(** The characters of a string that are not whitespace, in order. *)
Definition ink (s : pystr) : pystr :=
  filter (fun c => negb (is_space c)) s.

(** No character of the string is one that [html.escape] rewrites. *)
Definition plain (s : pystr) : bool :=
  forallb (fun c => negb ((c =? 38) || (c =? 60) || (c =? 62)
                          || (c =? 34) || (c =? 39))) s.

(** The request the remote adapter sends for a text. *)
Definition remote_request (self : Summarizer) (text : pystr) : request :=
  {| url := rstrip_by (N.eqb 47) (base_url self) ++ utf8 "/chat/completions";
     authorization := utf8 "Bearer " ++ or_empty (api_key self);
     req_model := model self;
     system_content := utf8 "너는 텔레그램 뉴스레터 에디터다.";
     user_content :=
       utf8 "아래 텔레그램 메시지를 2~3개 핵심 bullet로 한국어 요약하세요. "
       ++ utf8 "중요한 수치/일정/행동요청을 우선 반영하고 400자 이내로 작성하세요."
       ++ NEWLINE ++ NEWLINE
       ++ utf8 "메시지:" ++ NEWLINE ++ text;
     timeout := 30 |}.

(** The status is one for which [raise_for_status] raises. *)
Definition is_error_status (status : Z) : bool :=
  ((400 <=? status) && (status <? 600))%Z.

(** A summarizer without a credential. *)
Definition local_summarizer : Summarizer :=
  {| api_key := None;
     base_url := utf8 "https://api.openai.com/v1";
     model := utf8 "gpt-4o-mini" |}.

(* ----------------------------------------------------------------- *)
(** *** What a run collects *)

(** The message is unread and has some text. *)
Definition qualifying (msg : Message) : bool :=
  msg_unread msg && (truthy (msg_message msg) || truthy (msg_raw_text msg)).

(** The messages of a dialog that become items, oldest first: none for a
    dialog that is not a channel or has no unread message. *)
Definition dialog_messages (client : TelegramClient) (limit : Z)
    (dialog : Dialog) : list (Channel * Message) :=
  match dlg_entity dialog with
  | EntOther => []
  | EntChannel entity =>
      if (dlg_unread_count dialog <=? 0)%Z then []
      else map (pair entity)
               (rev (filter qualifying
                       (iter_messages client entity
                          (Z.min (dlg_unread_count dialog) limit))))
  end.

(** The item of a message, up to its summary. *)
Definition item_of (strftime_local : Z -> pystr) (dialog : Dialog)
    (cm : Channel * Message) (summ : pystr) : DigestItem :=
  {| channel_title := dlg_title dialog;
     channel_id := chan_id (fst cm);
     message_id := msg_id (snd cm);
     date := strftime_local (msg_date (snd cm));
     text := first_truthy (msg_raw_text (snd cm)) (msg_message (snd cm));
     summary := summ;
     message_link := build_message_link (fst cm) (msg_id (snd cm)) |}.

Definition expected_items (strftime_local : Z -> pystr)
    (client : TelegramClient) (limit : Z) : list (pystr -> DigestItem) :=
  flat_map (fun dialog => map (item_of strftime_local dialog)
                              (dialog_messages client limit dialog))
           (iter_dialogs client).

(** The summary that needs no remote service. *)
Definition offline_summary (text : pystr) : pystr :=
  if nonempty (normalize_text (Some text))
  then summarize_locally (normalize_text (Some text)) 3
  else NO_TEXT.

(** What holds of the items collected so far, from the trace [w0] at the
    start of the run to the trace [w]. *)
Definition run_invariant (getenv : pystr -> option pystr) (w0 : trace)
    (expected : list (pystr -> DigestItem))
    (items : list DigestItem) (w : trace) : Prop :=
  Forall2 (fun item mk => item = mk (summary item)) items expected
  /\ (requests_made w <= requests_made w0 + length items)%nat
  /\ (truthy (getenv (utf8 "OPENAI_API_KEY")) = false ->
      requests_made w = requests_made w0
      /\ Forall (fun item => summary item = offline_summary (text item)) items).

(** An environment without any variable. *)
Definition empty_env : pystr -> option pystr := fun _ => None.

(** The item with only what the notification shows of it. *)
Definition scrub (item : DigestItem) : DigestItem :=
  {| channel_title := channel_title item; channel_id := 0; message_id := 0;
     date := []; text := [];
     summary := summary item; message_link := message_link item |}.

(** An environment with the two credentials of the notification bot. *)
Definition bot_env : pystr -> option pystr :=
  fun name =>
    if pystr_eqb name (utf8 "TG_BOT_TOKEN") then Some (utf8 "123:abc")
    else if pystr_eqb name (utf8 "TG_TARGET_CHAT_ID") then Some (utf8 "-100200")
    else None.

(** An endpoint that accepts every message. *)
Definition bot_ok : nat -> bot_request -> bot_outcome :=
  fun _ _ => BotResponded 200.

(** The request [post_via_bot] sends for a message. *)
Definition send_message_request (getenv : pystr -> option pystr)
    (message : pystr) : bot_request :=
  {| bot_url := utf8 "https://api.telegram.org/bot"
                ++ or_empty (getenv (utf8 "TG_BOT_TOKEN"))
                ++ utf8 "/sendMessage";
     bot_chat_id := or_empty (getenv (utf8 "TG_TARGET_CHAT_ID"));
     bot_text := message;
     bot_parse_mode := utf8 "HTML";
     bot_disable_web_page_preview := true;
     bot_timeout := 20 |}.

(* ----------------------------------------------------------------- *)
(** *** The report, piece by piece *)

(** The templates without the whitespace that [strip] removes. *)
Definition CARD_OPEN : pystr := lstrip_by is_space CARD_PART_0.
Definition CARD_CLOSE : pystr := rstrip_by is_space CARD_PART_5.
Definition PAGE_OPEN : pystr := lstrip_by is_space PAGE_PART_0.
Definition PAGE_CLOSE : pystr := rstrip_by is_space PAGE_PART_2.

(** The summary as the report shows it. *)
Definition report_summary (item : DigestItem) : pystr :=
  replace_char 10 (utf8 "<br>") (html_escape (summary item)).

Definition card_core (item : DigestItem) : pystr :=
  CARD_OPEN ++ html_escape (channel_title item)
  ++ CARD_PART_1 ++ date item
  ++ CARD_PART_2 ++ report_summary item
  ++ CARD_PART_3 ++ html_escape (text item)
  ++ CARD_PART_4 ++ message_link item
  ++ CARD_CLOSE.

(** [s.endswith(p)] *)
Definition endswith (p s : pystr) : bool := startswith (rev p) (rev s).

(** [x] cannot start at the head of [s], whatever follows [s]: the two
    differ at a position inside [s]. *)
Fixpoint clash (x s : pystr) : bool :=
  match x, s with
  | a :: x', b :: s' => negb (a =? b) || clash x' s'
  | _, _ => false
  end.

(** [x] cannot start at any position of [s], whatever follows [s]. *)
Fixpoint sealed (x s : pystr) : bool :=
  match s with
  | [] => true
  | _ :: t => clash x s && sealed x t
  end.

(** The marker of a card in the report. *)
Definition ARTICLE : pystr := utf8 "<article".
(* ================================================================= *)
(** ** Stripping *)

Section Strip.
Variable p : char -> bool.

Lemma drop_while_head (s : pystr) :
  match drop_while p s with c :: _ => p c = false | [] => True end.
Proof.
  induction s as [|c t IH]; simpl; [exact I|].
  destruct (p c) eqn:E; [exact IH | exact E].
Qed.

Lemma drop_while_snoc (s : pystr) (c : char) :
  drop_while p (s ++ [c]) =
  match drop_while p s with
  | [] => if p c then [] else [c]
  | r => r ++ [c]
  end.
Proof.
  induction s as [|a t IH]; simpl; [reflexivity|].
  destruct (p a); [exact IH | reflexivity].
Qed.

(** [rstrip] seen from the front of the string. *)
Lemma rstrip_by_cons (c : char) (t : pystr) :
  rstrip_by p (c :: t) =
  match rstrip_by p t with
  | [] => if p c then [] else [c]
  | r => c :: r
  end.
Proof.
  unfold rstrip_by; simpl. rewrite drop_while_snoc.
  destruct (drop_while p (rev t)) as [|d r] eqn:E; simpl.
  - destruct (p c); reflexivity.
  - rewrite rev_app_distr; simpl.
    destruct (rev r ++ [d]) eqn:E2; [|reflexivity].
    destruct (rev r); discriminate.
Qed.

Lemma rstrip_by_last (s : pystr) :
  match rev (rstrip_by p s) with c :: _ => p c = false | [] => True end.
Proof.
  unfold rstrip_by. rewrite rev_involutive. apply drop_while_head.
Qed.

Lemma rstrip_by_first (s : pystr) :
  match s with c :: _ => p c = false | [] => True end ->
  match rstrip_by p s with c :: _ => p c = false | [] => True end.
Proof.
  destruct s as [|c t]; [intros _; exact I|]. intros Hc.
  rewrite rstrip_by_cons.
  destruct (rstrip_by p t); [rewrite Hc|]; exact Hc.
Qed.

Lemma strip_by_first (s : pystr) :
  match strip_by p s with c :: _ => p c = false | [] => True end.
Proof. apply rstrip_by_first, drop_while_head. Qed.

Lemma strip_by_last (s : pystr) :
  match rev (strip_by p s) with c :: _ => p c = false | [] => True end.
Proof. apply rstrip_by_last. Qed.

Lemma drop_while_id (s : pystr) :
  match s with c :: _ => p c = false | [] => True end ->
  drop_while p s = s.
Proof. destruct s as [|c t]; simpl; [reflexivity|]. intros ->. reflexivity. Qed.

Lemma strip_by_id (s : pystr) :
  match s with c :: _ => p c = false | [] => True end ->
  match rev s with c :: _ => p c = false | [] => True end ->
  strip_by p s = s.
Proof.
  intros Hf Hl. unfold strip_by, lstrip_by, rstrip_by.
  rewrite (drop_while_id s Hf), (drop_while_id (rev s) Hl).
  apply rev_involutive.
Qed.

Lemma drop_while_all (s : pystr) :
  forallb p s = true -> drop_while p s = [].
Proof.
  induction s as [|c t IH]; simpl; [reflexivity|].
  destruct (p c); simpl; [exact IH | discriminate].
Qed.

Lemma drop_while_incl (s : pystr) (c : char) :
  In c (drop_while p s) -> In c s.
Proof.
  induction s as [|a t IH]; simpl; [tauto|].
  destruct (p a); simpl; [intros H; right; exact (IH H) | tauto].
Qed.

Lemma strip_by_incl (s : pystr) (c : char) :
  In c (strip_by p s) -> In c s.
Proof.
  unfold strip_by, lstrip_by, rstrip_by. intros H.
  apply drop_while_incl. apply in_rev.
  apply drop_while_incl. apply in_rev in H. exact H.
Qed.
End Strip.

Lemma strip_starts (s : pystr) : starts_with_space (strip s) = false.
Proof.
  unfold strip, starts_with_space.
  pose proof (strip_by_first is_space s) as H.
  destruct (strip_by is_space s); [reflexivity | exact H].
Qed.

Lemma strip_ends (s : pystr) : ends_with_space (strip s) = false.
Proof.
  unfold strip, ends_with_space, starts_with_space.
  pose proof (strip_by_last is_space s) as H.
  destruct (rev (strip_by is_space s)); [reflexivity | exact H].
Qed.

Lemma strip_fixed (s : pystr) :
  starts_with_space s = false -> ends_with_space s = false -> strip s = s.
Proof.
  unfold starts_with_space, ends_with_space, starts_with_space, strip.
  intros Hf Hl. apply strip_by_id.
  - destruct s; [exact I | exact Hf].
  - destruct (rev s); [exact I | exact Hl].
Qed.

(* ================================================================= *)
(** ** [re.sub(r"\s+", " ", s)] collapses runs *)

Lemma sub_ws_squeeze (s : pystr) :
  (forall prev,
      sub_go ws_plus (utf8 " ") prev (length (take_while is_space s)) s
      = squeeze true s)
  /\ (forall prev, sub_go ws_plus (utf8 " ") prev 0 s = squeeze false s).
Proof.
  induction s as [|c t [IH1 IH0]]; [split; reflexivity|].
  assert (H0 : forall prev,
             sub_go ws_plus (utf8 " ") prev 0 (c :: t) = squeeze false (c :: t)).
  { intros prev. simpl sub_go. unfold ws_plus at 1. simpl take_while.
    simpl squeeze. destruct (is_space c); simpl length.
    - change (utf8 " ") with [32]. simpl. f_equal. apply IH1.
    - simpl. f_equal. apply IH0. }
  split; [|exact H0].
  intros prev. simpl take_while. destruct (is_space c) eqn:E.
  - simpl. rewrite E. apply IH1.
  - rewrite H0. simpl. rewrite E. reflexivity.
Qed.

Lemma normalize_text_squeeze (text : option pystr) :
  normalize_text text = squeeze false (strip (or_empty text)).
Proof. unfold normalize_text, re_sub. apply (sub_ws_squeeze _). Qed.

Lemma ends_with_space_cons (c : char) (t : pystr) :
  ends_with_space (c :: t) =
  match t with [] => is_space c | _ :: _ => ends_with_space t end.
Proof.
  unfold ends_with_space; simpl.
  destruct t as [|d t']; [reflexivity|].
  destruct (rev (d :: t')) as [|e r] eqn:E; [|reflexivity].
  apply (f_equal (@length char)) in E. rewrite length_rev in E. discriminate.
Qed.

Lemma squeeze_not_space (b : bool) (c : char) (t : pystr) :
  is_space c = false -> squeeze b (c :: t) = c :: squeeze false t.
Proof. intros E. simpl. rewrite E. reflexivity. Qed.

Lemma squeeze_shape (s : pystr) :
  ends_with_space s = false ->
  single_spaced (squeeze false s) = true
  /\ single_spaced (squeeze true s) = true
  /\ starts_with_space (squeeze true s) = false
  /\ (s <> [] -> squeeze true s <> []).
Proof.
  induction s as [|c t IH]; [intros _; repeat split; intros H; now elim H|].
  rewrite ends_with_space_cons. intros Hend.
  destruct (is_space c) eqn:E.
  - destruct t as [|d t']; [discriminate|].
    destruct (IH Hend) as (_ & Ht & Hs & Hn).
    assert (Hne : squeeze true (d :: t') <> []) by (apply Hn; discriminate).
    replace (squeeze true (c :: d :: t')) with (squeeze true (d :: t'))
      by (simpl; rewrite E; reflexivity).
    replace (squeeze false (c :: d :: t')) with (32 :: squeeze true (d :: t'))
      by (simpl; rewrite E; reflexivity).
    repeat split; auto.
    destruct (squeeze true (d :: t')) as [|e r]; [now elim Hne|].
    simpl in Hs. simpl in Ht. rewrite Hs in Ht.
    simpl. rewrite Hs. simpl. exact Ht.
  - rewrite !squeeze_not_space by exact E.
    assert (H0 : single_spaced (squeeze false t) = true).
    { destruct t as [|d t']; [reflexivity|]. apply (IH Hend). }
    repeat split; simpl; rewrite ?E; simpl; auto; discriminate.
Qed.

Lemma squeeze_starts (s : pystr) :
  starts_with_space s = false -> starts_with_space (squeeze false s) = false.
Proof.
  destruct s as [|c t]; simpl; [reflexivity|].
  intros E; rewrite E; simpl; exact E.
Qed.

Lemma single_spaced_squeeze (s : pystr) :
  single_spaced s = true -> squeeze false s = s.
Proof.
  induction s as [|c t IH]; [reflexivity|].
  simpl. intros H. apply andb_prop in H. destruct H as [Hc Ht].
  destruct (is_space c) eqn:E.
  - apply andb_prop in Hc. destruct Hc as [H32 Hd].
    apply N.eqb_eq in H32. subst c.
    destruct t as [|d t']; [discriminate|].
    apply negb_true_iff in Hd.
    f_equal. rewrite <- (IH Ht) at 2.
    rewrite !squeeze_not_space by exact Hd. reflexivity.
  - f_equal. exact (IH Ht).
Qed.

Lemma single_spaced_no_adjacent (s : pystr) :
  single_spaced s = true -> has_adjacent_spaces s = false.
Proof.
  induction s as [|a t IH]; [reflexivity|].
  simpl. intros H. apply andb_prop in H. destruct H as [Ha Ht].
  destruct t as [|b t']; [reflexivity|].
  rewrite (IH Ht), orb_false_r.
  destruct (is_space a); [|reflexivity].
  apply andb_prop in Ha. destruct Ha as [_ Hb].
  apply negb_true_iff in Hb. rewrite Hb. reflexivity.
Qed.

Lemma single_spaced_ends (s : pystr) :
  single_spaced s = true -> ends_with_space s = false.
Proof.
  induction s as [|c t IH]; [reflexivity|].
  rewrite ends_with_space_cons. simpl. intros H.
  apply andb_prop in H. destruct H as [Hc Ht].
  destruct t as [|d t']; [|exact (IH Ht)].
  destruct (is_space c); [|reflexivity].
  apply andb_prop in Hc. destruct Hc as [_ Hd]. discriminate.
Qed.

(** In a single-spaced string the only whitespace character is U+0020. *)
Lemma single_spaced_space (s : pystr) (c : char) :
  single_spaced s = true -> In c s -> is_space c = true -> c = 32.
Proof.
  induction s as [|a t IH]; simpl; [tauto|].
  intros H [->|Hin] Hc; apply andb_prop in H; destruct H as [Ha Ht].
  - rewrite Hc in Ha. apply andb_prop in Ha. destruct Ha as [Ha _].
    now apply N.eqb_eq.
  - exact (IH Ht Hin Hc).
Qed.

Lemma normalize_text_single_spaced (text : option pystr) :
  single_spaced (normalize_text text) = true.
Proof.
  rewrite normalize_text_squeeze. apply squeeze_shape, strip_ends.
Qed.

Lemma normalize_text_starts (text : option pystr) :
  starts_with_space (normalize_text text) = false.
Proof.
  rewrite normalize_text_squeeze. apply squeeze_starts, strip_starts.
Qed.

(** C6: for every input (a string or [None]), the normalized text has no
    two consecutive whitespace characters, has no leading and no trailing
    whitespace, and normalizing it again changes nothing. *)
Theorem normalize_text_normal_form (x : option pystr) :
  has_adjacent_spaces (normalize_text x) = false
  /\ starts_with_space (normalize_text x) = false
  /\ ends_with_space (normalize_text x) = false
  /\ normalize_text (Some (normalize_text x)) = normalize_text x.
Proof.
  pose proof (normalize_text_single_spaced x) as Hs.
  pose proof (normalize_text_starts x) as Hf.
  pose proof (single_spaced_ends _ Hs) as Hl.
  repeat split; auto using single_spaced_no_adjacent.
  rewrite (normalize_text_squeeze (Some _)). simpl or_empty.
  rewrite (strip_fixed _ Hf Hl). apply single_spaced_squeeze, Hs.
Qed.

(* ================================================================= *)
(** ** Local summarizer *)

Example utf8_bullet : utf8 "• " = [8226; 32].
Proof. reflexivity. Qed.

Example normalize_example :
  normalize_text (Some (utf8 "  a  b c   ")) = utf8 "a b c".
Proof. reflexivity. Qed.


Lemma firstn_In {A} (n : nat) (l : list A) (x : A) :
  In x (firstn n l) -> In x l.
Proof.
  intros H. rewrite <- (firstn_skipn n l). apply in_or_app. now left.
Qed.

Lemma slice_to_In {A} (n : Z) (l : list A) (x : A) :
  In x (slice_to n l) -> In x l.
Proof. unfold slice_to. destruct (n <? 0)%Z; apply firstn_In. Qed.

Lemma slice_to_length {A} (n : Z) (l : list A) :
  (0 <= n)%Z -> (Z.of_nat (length (slice_to n l)) <= n)%Z.
Proof.
  intros Hn. unfold slice_to.
  destruct (n <? 0)%Z eqn:E; [apply Z.ltb_lt in E; lia|].
  pose proof (firstn_le_length (Z.to_nat n) l). lia.
Qed.

Lemma slice_to_nonempty {A} (n : Z) (l : list A) :
  (1 <= n)%Z -> l <> [] -> slice_to n l <> [].
Proof.
  intros Hn Hl. unfold slice_to.
  destruct (n <? 0)%Z eqn:E; [apply Z.ltb_lt in E; lia|].
  destruct l as [|a l']; [now elim Hl|].
  destruct (Z.to_nat n) as [|k] eqn:Ek; [lia|]. discriminate.
Qed.

(** Every piece that [re.split] returns is made of characters of the
    subject. *)
Lemma split_go_chars (m : matcher) (s : pystr) :
  forall prev skip cur,
    Forall (fun chunk => forall c, In c chunk -> In c cur \/ In c s)
           (split_go m prev skip cur s).
Proof.
  induction s as [|a t IH]; intros prev skip cur; simpl.
  - constructor; [|constructor]. intros c Hc. left. now apply in_rev.
  - assert (Hstep : forall prev' k cur',
               (forall c, In c cur' -> In c cur \/ In c (a :: t)) ->
               Forall (fun chunk => forall c, In c chunk ->
                                   In c cur \/ In c (a :: t))
                      (split_go m prev' k cur' t)).
    { intros prev' k cur' Hcur.
      eapply Forall_impl; [|apply (IH prev' k cur')].
      intros chunk H c Hc. destruct (H c Hc) as [H1|H1].
      - apply Hcur, H1.
      - right; right; exact H1. }
    destruct skip as [|k].
    + destruct (m prev (a :: t)) as [[|k]|].
      * apply Hstep. intros c [->|Hc]; [right; now left | now left].
      * constructor.
        -- intros c Hc. left. now apply in_rev.
        -- apply Hstep. intros c [].
      * apply Hstep. intros c [->|Hc]; [right; now left | now left].
    + apply Hstep. intros c Hc. now left.
Qed.

Lemma re_split_chars (m : matcher) (s chunk : pystr) (c : char) :
  In chunk (re_split m s) -> In c chunk -> In c s.
Proof.
  intros Hchunk Hc.
  pose proof (split_go_chars m s None 0%nat []) as H.
  rewrite Forall_forall in H.
  destruct (H chunk Hchunk c Hc) as [[]|H1]. exact H1.
Qed.

Lemma split_on_without (sep : char) (x : pystr) :
  ~ In sep x -> split_on sep x = [x].
Proof.
  induction x as [|c t IH]; [reflexivity|].
  intros H. simpl.
  destruct (c =? sep) eqn:E.
  - apply N.eqb_eq in E. elim H. now left.
  - rewrite IH; [reflexivity|]. intros Hin. apply H. now right.
Qed.

Lemma split_on_app (sep : char) (x rest : pystr) :
  ~ In sep x -> split_on sep (x ++ sep :: rest) = x :: split_on sep rest.
Proof.
  induction x as [|c t IH]; intros H; simpl.
  - rewrite N.eqb_refl. reflexivity.
  - destruct (c =? sep) eqn:E.
    + apply N.eqb_eq in E. elim H. now left.
    + rewrite IH; [reflexivity|]. intros Hin. apply H. now right.
Qed.

(** Splitting a joined text gives back the parts, when no part holds the
    separator. *)
Lemma split_on_join (sep : char) (parts : list pystr) :
  parts <> [] -> Forall (fun x => ~ In sep x) parts ->
  split_on sep (join [sep] parts) = parts.
Proof.
  induction parts as [|x rest IH]; [intros H; now elim H|].
  intros _ H. inversion H as [|? ? Hx Hrest]; subst.
  destruct rest as [|y rest'].
  - simpl. now apply split_on_without.
  - change (join [sep] (x :: y :: rest'))
      with (x ++ sep :: join [sep] (y :: rest')).
    rewrite split_on_app by exact Hx. f_equal.
    apply IH; [discriminate | exact Hrest].
Qed.

Lemma join_nonempty (sep : pystr) (parts : list pystr) :
  parts <> [] -> Forall (fun x => x <> []) parts -> join sep parts <> [].
Proof.
  destruct parts as [|x rest]; [intros H; now elim H|].
  intros _ H. inversion H as [|? ? Hx _]; subst.
  destruct x as [|c x']; [now elim Hx|].
  destruct rest; simpl; discriminate.
Qed.

Lemma summarize_locally_selected (text : pystr) (max_sentences : Z) :
  summarize_locally text max_sentences =
  join NEWLINE (map (fun s => BULLET ++ firstn 220 s)
                    (selected_fragments text max_sentences)).
Proof. reflexivity. Qed.

Lemma selected_fragments_chars (text : pystr) (n : Z) (s : pystr) (c : char) :
  In s (selected_fragments text n) -> In c s -> In c text.
Proof.
  unfold selected_fragments. intros Hs Hc. apply slice_to_In in Hs.
  destruct (map _ (filter _ (re_split sentence_break text))) as [|f fs] eqn:E.
  - destruct Hs as [<-|[]]. eapply firstn_In, Hc.
  - rewrite <- E in Hs. apply in_map_iff in Hs.
    destruct Hs as (chunk & <- & Hchunk). apply filter_In in Hchunk.
    destruct Hchunk as [Hchunk _].
    apply strip_by_incl in Hc. eapply re_split_chars; eauto.
Qed.

Lemma selected_fragments_nonempty (text : pystr) (n : Z) :
  (1 <= n)%Z -> selected_fragments text n <> [].
Proof.
  intros Hn. unfold selected_fragments. apply slice_to_nonempty; [exact Hn|].
  destruct (map _ (filter _ (re_split sentence_break text))); discriminate.
Qed.

(** The local summary of a text without line feeds: one bullet line per
    selected fragment. *)
Lemma summarize_locally_lines (text : pystr) (n : Z) :
  ~ In 10 text -> (1 <= n)%Z ->
  text_lines (summarize_locally text n) =
  map (fun s => BULLET ++ firstn 220 s) (selected_fragments text n).
Proof.
  intros Hnl Hn. rewrite summarize_locally_selected.
  apply (split_on_join 10).
  - pose proof (selected_fragments_nonempty text n Hn) as Hne.
    destruct (selected_fragments text n); [now elim Hne | discriminate].
  - apply Forall_forall. intros x Hx. apply in_map_iff in Hx.
    destruct Hx as (s & <- & Hs). intros Hin.
    apply in_app_or in Hin. destruct Hin as [Hin|Hin].
    + vm_compute in Hin. intuition discriminate.
    + apply firstn_In in Hin. apply Hnl.
      eapply selected_fragments_chars; eauto.
Qed.

Lemma summarize_locally_nonempty (text : pystr) (n : Z) :
  (1 <= n)%Z -> summarize_locally text n <> [].
Proof.
  intros Hn. rewrite summarize_locally_selected. apply join_nonempty.
  - pose proof (selected_fragments_nonempty text n Hn) as Hne.
    destruct (selected_fragments text n); [now elim Hne | discriminate].
  - apply Forall_forall. intros x Hx. apply in_map_iff in Hx.
    destruct Hx as (s & <- & _). discriminate.
Qed.

Lemma normalized_no_newline (text : pystr) :
  normalize_text (Some text) = text -> ~ In 10 text.
Proof.
  intros Hn Hin.
  pose proof (normalize_text_single_spaced (Some text)) as Hs.
  rewrite Hn in Hs.
  pose proof (single_spaced_space text 10 Hs Hin eq_refl). discriminate.
Qed.

(** C7: for every non-empty normalized text and every [max_sentences >= 1],
    the local summary is a non-empty string, each of its lines starts with
    the bullet marker and is at most 222 characters long, and it has at
    most [max_sentences] lines. *)
Theorem summarize_locally_shape (text : pystr) (max_sentences : Z) :
  normalize_text (Some text) = text ->
  text <> [] ->
  (1 <= max_sentences)%Z ->
  summarize_locally text max_sentences <> []
  /\ Forall (fun line => startswith BULLET line = true
                         /\ (length line <= 222)%nat)
            (text_lines (summarize_locally text max_sentences))
  /\ (Z.of_nat (length (text_lines (summarize_locally text max_sentences)))
      <= max_sentences)%Z.
Proof.
  intros Hnorm _ Hmax.
  pose proof (normalized_no_newline text Hnorm) as Hnl.
  rewrite (summarize_locally_lines text max_sentences Hnl Hmax).
  split; [now apply summarize_locally_nonempty|]. split.
  - apply Forall_forall. intros line Hline. apply in_map_iff in Hline.
    destruct Hline as (s & <- & _). split; [reflexivity|].
    rewrite length_app. pose proof (firstn_le_length 220 s).
    change (length BULLET) with 2%nat. lia.
  - rewrite length_map. unfold selected_fragments.
    apply slice_to_length. lia.
Qed.

Lemma summarize_locally_shape_witness :
  summarize_locally (utf8 "Rates were cut today. Markets rallied in the afternoon session.") 3
  = utf8 "• Rates were cut today." ++ NEWLINE
    ++ utf8 "• Markets rallied in the afternoon session."
  /\ Forall (fun line => startswith BULLET line = true
                         /\ (length line <= 222)%nat)
            (text_lines (summarize_locally (utf8 "Rates were cut today. Markets rallied in the afternoon session.") 3)).
Proof.
  split; [vm_compute; reflexivity|].
  apply (summarize_locally_shape
           (utf8 "Rates were cut today. Markets rallied in the afternoon session.") 3).
  - vm_compute; reflexivity.
  - discriminate.
  - lia.
Defined.

(* ================================================================= *)
(** ** Notification rendering *)

Lemma pystr_eqb_eq (a b : pystr) : pystr_eqb a b = true <-> a = b.
Proof.
  unfold pystr_eqb. destruct (list_eq_dec N.eq_dec a b); split;
    congruence.
Qed.

Lemma pystr_eqb_refl (a : pystr) : pystr_eqb a a = true.
Proof. now apply pystr_eqb_eq. Qed.

Lemma pystr_eqb_neq (a b : pystr) : pystr_eqb a b = false <-> a <> b.
Proof.
  rewrite <- pystr_eqb_eq. destruct (pystr_eqb a b); split; congruence.
Qed.

Lemma pystr_eqb_sym (a b : pystr) : pystr_eqb a b = pystr_eqb b a.
Proof.
  destruct (pystr_eqb b a) eqn:E.
  - apply pystr_eqb_eq in E. subst. apply pystr_eqb_refl.
  - apply pystr_eqb_neq in E. apply pystr_eqb_neq. congruence.
Qed.

Lemma existsb_pystr_eqb (t : pystr) (l : list pystr) :
  existsb (pystr_eqb t) l = true <-> In t l.
Proof.
  rewrite existsb_exists. split.
  - intros (u & Hu & E). apply pystr_eqb_eq in E. now subst.
  - intros H. exists t. split; [exact H | apply pystr_eqb_refl].
Qed.

Lemma first_seen_In (l : list pystr) (u : pystr) :
  In u (first_seen l) <-> In u l.
Proof.
  induction l as [|t rest IH]; simpl; [tauto|].
  rewrite filter_In, IH, negb_true_iff, pystr_eqb_neq.
  destruct (list_eq_dec N.eq_dec t u); intuition congruence.
Qed.

Lemma first_seen_NoDup (l : list pystr) : NoDup (first_seen l).
Proof.
  induction l as [|t rest IH]; simpl; constructor.
  - rewrite filter_In, negb_true_iff, pystr_eqb_neq. tauto.
  - now apply NoDup_filter.
Qed.

Lemma first_seen_snoc (l : list pystr) (t : pystr) :
  first_seen (l ++ [t]) =
  if existsb (pystr_eqb t) l then first_seen l else first_seen l ++ [t].
Proof.
  induction l as [|a rest IH]; [reflexivity|].
  simpl. rewrite IH.
  destruct (pystr_eqb t a) eqn:Eta; simpl.
  - destruct (existsb (pystr_eqb t) rest); [reflexivity|].
    rewrite filter_app. simpl. rewrite Eta. simpl.
    now rewrite app_nil_r.
  - destruct (existsb (pystr_eqb t) rest); [reflexivity|].
    rewrite filter_app. simpl. rewrite Eta. reflexivity.
Qed.

Section GroupedAppend.
Variable F : pystr -> list DigestItem.
Variable t : pystr.
Variable x : DigestItem.

Lemma grouped_append_absent (ks : list pystr) :
  ~ In t ks ->
  grouped_append (map (fun k => (k, F k)) ks) t x
  = map (fun k => (k, F k)) ks ++ [(t, [x])].
Proof.
  induction ks as [|k ks' IH]; intros Hin; simpl; [reflexivity|].
  destruct (pystr_eqb k t) eqn:E.
  - apply pystr_eqb_eq in E. elim Hin. now left.
  - rewrite IH; [reflexivity|]. intros H. apply Hin. now right.
Qed.

Lemma grouped_append_present (ks : list pystr) :
  NoDup ks -> In t ks ->
  grouped_append (map (fun k => (k, F k)) ks) t x
  = map (fun k => (k, F k ++ if pystr_eqb t k then [x] else [])) ks.
Proof.
  induction ks as [|k ks' IH]; intros Hnd Hin; [now elim Hin|].
  inversion Hnd as [|? ? Hk Hnd']; subst. simpl.
  destruct (pystr_eqb k t) eqn:E.
  - apply pystr_eqb_eq in E. subst k. rewrite pystr_eqb_refl.
    f_equal. apply map_ext_in. intros k Hk'.
    destruct (pystr_eqb t k) eqn:E2.
    + apply pystr_eqb_eq in E2. subst k. now elim Hk.
    + now rewrite app_nil_r.
  - rewrite pystr_eqb_sym, E, app_nil_r. f_equal.
    apply IH; [exact Hnd'|].
    destruct Hin as [->|Hin]; [|exact Hin].
    rewrite pystr_eqb_refl in E. discriminate.
Qed.
End GroupedAppend.

Lemma filter_has_title_snoc (k : pystr) (l : list DigestItem) (x : DigestItem) :
  filter (has_title k) (l ++ [x])
  = filter (has_title k) l
    ++ if pystr_eqb (channel_title x) k then [x] else [].
Proof. rewrite filter_app. reflexivity. Qed.

Lemma filter_has_title_absent (t : pystr) (l : list DigestItem) :
  ~ In t (map channel_title l) -> filter (has_title t) l = [].
Proof.
  induction l as [|a l' IH]; simpl; [reflexivity|]. intros H.
  unfold has_title at 1. destruct (pystr_eqb (channel_title a) t) eqn:E.
  - apply pystr_eqb_eq in E. elim H. now left.
  - apply IH. intros Hin. apply H. now right.
Qed.

Lemma groups_by_title_snoc (l : list DigestItem) (x : DigestItem) :
  groups_by_title (l ++ [x])
  = grouped_append (groups_by_title l) (channel_title x) x.
Proof.
  unfold groups_by_title. rewrite map_app.
  change (map channel_title [x]) with [channel_title x].
  rewrite first_seen_snoc.
  destruct (existsb (pystr_eqb (channel_title x)) (map channel_title l)) eqn:E.
  - apply existsb_pystr_eqb in E.
    rewrite grouped_append_present;
      [|apply first_seen_NoDup | now apply first_seen_In].
    apply map_ext. intros k. now rewrite filter_has_title_snoc.
  - assert (Hx : ~ In (channel_title x) (map channel_title l)).
    { intros H. apply existsb_pystr_eqb in H. congruence. }
    rewrite grouped_append_absent by (now rewrite first_seen_In).
    rewrite map_app. simpl. f_equal.
    + apply map_ext_in. intros k Hk. rewrite filter_has_title_snoc.
      destruct (pystr_eqb (channel_title x) k) eqn:E2.
      * apply pystr_eqb_eq in E2. subst k.
        apply (proj1 (first_seen_In _ _)) in Hk. now elim Hx.
      * now rewrite app_nil_r.
    + rewrite filter_has_title_snoc, pystr_eqb_refl.
      now rewrite (filter_has_title_absent _ _ Hx).
Qed.

(** The dictionary the source fills holds the groups by title. *)
Lemma grouped_fold (l : list DigestItem) :
  fold_left (fun grouped item =>
               grouped_append grouped (channel_title item) item) l []
  = groups_by_title l.
Proof.
  induction l as [|x l' IH] using rev_ind; [reflexivity|].
  now rewrite fold_left_app, groups_by_title_snoc, IH.
Qed.

Lemma fold_left_append {A B} (f : A -> list B) (l : list A) (acc : list B) :
  fold_left (fun acc a => acc ++ f a) l acc = acc ++ flat_map f l.
Proof.
  revert acc. induction l as [|a l' IH]; intros acc; simpl.
  - now rewrite app_nil_r.
  - now rewrite IH, app_assoc.
Qed.

Lemma fold_left_ext {A B} (f g : A -> B -> A) (l : list B) (a : A) :
  (forall a b, f a b = g a b) -> fold_left f l a = fold_left g l a.
Proof.
  intros H. revert a. induction l as [|b l' IH]; intros a; simpl;
    [reflexivity|]. now rewrite H, IH.
Qed.

(** The inner loop of the renderer appends the two lines of each item. *)
Lemma item_loop (ps : list (Z * DigestItem)) (lines0 : list pystr) :
  fold_left
    (fun lines (p : Z * DigestItem) =>
       let (idx, item) := p in
       let lines :=
         lines ++ [str_of_int idx ++ utf8 ") "
                   ++ html_escape (summary item)] in
       lines ++ [utf8 "🔗 <a href=" ++ QUOTE ++ message_link item
                 ++ QUOTE ++ utf8 ">원문 링크</a>"])
    ps lines0
  = lines0 ++ flat_map item_lines ps.
Proof.
  revert lines0. induction ps as [|[idx item] ps' IH]; intros lines0.
  - cbn [fold_left flat_map]. now rewrite app_nil_r.
  - cbn [fold_left flat_map]. rewrite IH.
    unfold item_lines, summary_line, link_line, anchor. cbn [fst snd].
    rewrite <- !app_assoc. reflexivity.
Qed.

(** The outer loop appends, for each group, its heading and its items. *)
Lemma group_loop (gs : groups) (lines0 : list pystr) :
  fold_left
    (fun lines (entry : pystr * list DigestItem) =>
       let (channel, channel_items) := entry in
       let lines :=
         lines ++ [NEWLINE ++ utf8 "📌 <b>" ++ html_escape channel
                   ++ utf8 "</b>"] in
       fold_left
         (fun lines (p : Z * DigestItem) =>
            let (idx, item) := p in
            let lines :=
              lines ++ [str_of_int idx ++ utf8 ") "
                        ++ html_escape (summary item)] in
            lines ++ [utf8 "🔗 <a href=" ++ QUOTE ++ message_link item
                      ++ QUOTE ++ utf8 ">원문 링크</a>"])
         (enumerate 1 channel_items) lines)
    gs lines0
  = lines0 ++ flat_map render_group gs.
Proof.
  revert lines0. induction gs as [|[channel channel_items] gs' IH];
    intros lines0.
  - cbn [fold_left flat_map]. now rewrite app_nil_r.
  - cbn [fold_left flat_map]. rewrite item_loop, IH.
    unfold render_group, heading_line. cbn [fst snd].
    rewrite <- !app_assoc. reflexivity.
Qed.

(** The notification is the header, the rendered groups of the capped
    sequence and, when items were left out, the note. *)
Lemma build_digest_message_eq (items : list DigestItem) (max_items : Z) :
  items <> [] ->
  build_digest_message items max_items
  = join NEWLINE
      (digest_lines (slice_to max_items items)
       ++ if (Z.of_nat (length items) >? max_items)%Z
          then [omitted_note (Z.of_nat (length items) - max_items)]
          else []).
Proof.
  destruct items as [|i0 rest]; [intros H; now elim H|]. intros _.
  unfold build_digest_message. rewrite grouped_fold, group_loop.
  unfold digest_lines, omitted_note, HEADER.
  destruct (Z.of_nat (length (i0 :: rest)) >? max_items)%Z.
  - reflexivity.
  - now rewrite app_nil_r.
Qed.

Lemma slice_to_nonneg {A} (n : Z) (l : list A) :
  (0 <= n)%Z -> slice_to n l = firstn (Z.to_nat n) l.
Proof.
  intros Hn. unfold slice_to.
  destruct (n <? 0)%Z eqn:E; [apply Z.ltb_lt in E; lia | reflexivity].
Qed.

Lemma startswith_app (x post : pystr) : startswith x (x ++ post) = true.
Proof.
  induction x as [|c x' IH]; [reflexivity|].
  simpl. now rewrite N.eqb_refl, IH.
Qed.

Lemma contains_unfold (s x : pystr) :
  contains s x
  = startswith x s || match s with [] => false | _ :: t => contains t x end.
Proof. destruct s; reflexivity. Qed.

Lemma contains_app (pre x post : pystr) : contains (pre ++ x ++ post) x = true.
Proof.
  induction pre as [|c pre' IH].
  - rewrite contains_unfold. cbn [app]. now rewrite startswith_app.
  - rewrite contains_unfold. cbn [app]. rewrite IH. apply orb_true_r.
Qed.

Lemma join_In (sep x : pystr) (parts : list pystr) :
  In x parts -> exists pre post, join sep parts = pre ++ x ++ post.
Proof.
  induction parts as [|y rest IH]; [intros []|].
  intros [->|Hin].
  - destruct rest as [|z rest'].
    + exists [], []. simpl. now rewrite app_nil_r.
    + exists [], (sep ++ join sep (z :: rest')). reflexivity.
  - destruct (IH Hin) as (pre & post & E).
    destruct rest as [|z rest']; [now elim Hin|].
    exists (y ++ sep ++ pre), post.
    change (join sep (y :: z :: rest')) with (y ++ sep ++ join sep (z :: rest')).
    rewrite E. now rewrite <- !app_assoc.
Qed.

(** A line that is joined stands in the joined text. *)
Lemma contains_join (sep x : pystr) (parts : list pystr) :
  In x parts -> contains (join sep parts) x = true.
Proof.
  intros H. destruct (join_In sep x parts H) as (pre & post & ->).
  apply contains_app.
Qed.

Lemma enumerate_In {A} (l : list A) (x : A) (start : Z) :
  In x l -> exists idx, (start <= idx)%Z /\ In (idx, x) (enumerate start l).
Proof.
  revert start. induction l as [|a l' IH]; intros start; [intros []|].
  intros [->|Hin].
  - exists start. split; [lia | now left].
  - destruct (IH (start + 1)%Z Hin) as (idx & Hle & Hidx).
    exists idx. split; [lia | now right].
Qed.

Lemma digest_lines_heading (l : list DigestItem) (item : DigestItem) :
  In item l -> In (heading_line (channel_title item)) (digest_lines l).
Proof.
  intros Hin. unfold digest_lines. right. apply in_flat_map.
  exists (channel_title item, filter (has_title (channel_title item)) l).
  split; [|now left].
  unfold groups_by_title. apply in_map_iff. exists (channel_title item).
  split; [reflexivity|]. apply first_seen_In. now apply in_map.
Qed.

Lemma digest_lines_item (l : list DigestItem) (item : DigestItem) :
  In item l ->
  exists idx, (1 <= idx)%Z
              /\ In (summary_line idx item) (digest_lines l)
              /\ In (link_line item) (digest_lines l).
Proof.
  intros Hin.
  assert (Hf : In item (filter (has_title (channel_title item)) l)).
  { apply filter_In. split; [exact Hin | apply pystr_eqb_refl]. }
  destruct (enumerate_In _ _ 1%Z Hf) as (idx & Hle & Hidx).
  assert (Hg : In (channel_title item,
                   filter (has_title (channel_title item)) l)
                  (groups_by_title l)).
  { unfold groups_by_title. apply in_map_iff. exists (channel_title item).
    split; [reflexivity|]. apply first_seen_In. now apply in_map. }
  exists idx. split; [exact Hle|].
  split; unfold digest_lines; right; apply in_flat_map;
    eexists; (split; [exact Hg|]); right; apply in_flat_map;
    exists (idx, item); (split; [exact Hidx|]); simpl; tauto.
Qed.

Lemma html_escape_app (a b : pystr) :
  html_escape (a ++ b) = html_escape a ++ html_escape b.
Proof. unfold html_escape, replace_char. now rewrite !flat_map_app. Qed.

Lemma html_escape_char (c : char) : markup_free (html_escape [c]) = true.
Proof.
  unfold html_escape, replace_char. simpl flat_map at 5.
  destruct (c =? 38) eqn:E38; [reflexivity|].
  simpl. destruct (c =? 60) eqn:E60; [reflexivity|].
  simpl. destruct (c =? 62) eqn:E62; [reflexivity|].
  simpl. destruct (c =? 34) eqn:E34; [reflexivity|].
  simpl. destruct (c =? 39) eqn:E39; [reflexivity|].
  simpl. now rewrite E60, E62, E34, E39.
Qed.

(** An escaped text holds none of [<], [>], the double and the single
    quote. *)
Lemma html_escape_markup_free (s : pystr) : markup_free (html_escape s) = true.
Proof.
  induction s as [|c t IH]; [reflexivity|].
  change (c :: t) with ([c] ++ t). rewrite html_escape_app.
  unfold markup_free. rewrite forallb_app.
  apply andb_true_intro. split; [apply html_escape_char | exact IH].
Qed.

(** C9: the notification groups the capped items by their title, the
    headings stand in the order in which the titles are first seen, and the
    items of a group keep their incoming order; the channel id plays no
    part in the grouping. *)
Theorem build_digest_message_groups (items : list DigestItem) (max_items : Z) :
  items <> [] ->
  fold_left (fun grouped item =>
               grouped_append grouped (channel_title item) item)
            (slice_to max_items items) []
  = map (fun t => (t, filter (has_title t) (slice_to max_items items)))
        (first_seen (map channel_title (slice_to max_items items)))
  /\ build_digest_message items max_items
     = join NEWLINE
         ((HEADER :: flat_map render_group
                       (groups_by_title (slice_to max_items items)))
          ++ if (Z.of_nat (length items) >? max_items)%Z
             then [omitted_note (Z.of_nat (length items) - max_items)]
             else []).
Proof.
  intros Hne. split.
  - apply grouped_fold.
  - now apply build_digest_message_eq.
Qed.

Lemma build_digest_message_groups_witness :
  map fst (fold_left (fun grouped item =>
                        grouped_append grouped (channel_title item) item)
                     (slice_to 20 sample_items) [])
  = [utf8 "A"; utf8 "B"]
  /\ build_digest_message sample_items 20
     = join NEWLINE
         ((HEADER :: flat_map render_group
                       (groups_by_title (slice_to 20 sample_items)))
          ++ if (Z.of_nat (length sample_items) >? 20)%Z
             then [omitted_note (Z.of_nat (length sample_items) - 20)]
             else []).
Proof.
  destruct (build_digest_message_groups sample_items 20) as [H1 H2];
    [discriminate|].
  split; [rewrite H1; vm_compute; reflexivity | exact H2].
Defined.

Example sample_items_shared_title :
  groups_by_title sample_items
  = [ (utf8 "A", [ sample_item "A" 1 10 "first" "https://t.me/a/10";
                   sample_item "A" 3 30 "third" "https://t.me/c/3/30" ]);
      (utf8 "B", [ sample_item "B" 2 20 "second" "https://t.me/b/20" ]) ].
Proof. vm_compute. reflexivity. Qed.

Lemma uint_chars_head (u : Decimal.uint) :
  u <> Decimal.Nil ->
  exists c rest, uint_chars u = c :: rest /\ 48 <= c.
Proof.
  destruct u; intros H; [now elim H| ..]; simpl;
    eexists; eexists; (split; [reflexivity|]); unfold digit_char; lia.
Qed.

(** [str(n)] starts with a digit or with the minus sign. *)
Lemma str_of_int_head (z : Z) :
  exists c rest, str_of_int z = c :: rest /\ 45 <= c.
Proof.
  unfold str_of_int. destruct z as [|p|p]; simpl.
  - exists 48, []. split; [reflexivity | lia].
  - destruct (uint_chars_head (Pos.to_uint p)) as (c & rest & E & Hc);
      [apply DecimalPos.Unsigned.to_uint_nonnil|].
    exists c, rest. split; [exact E | lia].
  - eexists; eexists; split; [reflexivity | lia].
Qed.

(** No line of the rendered groups is an omission note. *)
Lemma digest_lines_no_note (l : list DigestItem) (n : Z) :
  ~ In (omitted_note n) (digest_lines l).
Proof.
  unfold digest_lines. intros [H|H].
  - vm_compute in H. discriminate.
  - apply in_flat_map in H. destruct H as (g & _ & [H|H]).
    + unfold heading_line, omitted_note in H.
      apply app_inv_head in H. vm_compute in H. discriminate.
    + apply in_flat_map in H. destruct H as (p & _ & [H|[H|[]]]).
      * unfold summary_line, omitted_note in H.
        destruct (str_of_int_head (fst p)) as (c & rest & E & Hc).
        rewrite E in H. change NEWLINE with [10] in H.
        simpl in H. injection H as H _. lia.
      * unfold link_line, anchor, omitted_note in H.
        vm_compute in H. discriminate.
Qed.

(** C4: with a cap [max_items >= 0], a list longer than the cap is rendered
    from its first [max_items] items alone, followed by a note that states
    [length - max_items] omitted items; a list within the cap is rendered
    whole, and no line of it is such a note. *)
Theorem build_digest_message_cap (items : list DigestItem) (max_items : Z) :
  (0 <= max_items)%Z ->
  ((max_items < Z.of_nat (length items))%Z ->
   build_digest_message items max_items
   = join NEWLINE
       (digest_lines (firstn (Z.to_nat max_items) items)
        ++ [omitted_note (Z.of_nat (length items) - max_items)]))
  /\ ((Z.of_nat (length items) <= max_items)%Z ->
      build_digest_message items max_items
      = match items with
        | [] => NO_UNREAD
        | _ :: _ => join NEWLINE (digest_lines items)
        end)
  /\ (forall l n, ~ In (omitted_note n) (digest_lines l)).
Proof.
  intros Hmax. split; [|split].
  - intros Hlen.
    assert (Hne : items <> []) by (destruct items; [simpl in Hlen; lia | discriminate]).
    rewrite (build_digest_message_eq items max_items Hne).
    rewrite slice_to_nonneg by exact Hmax.
    destruct (Z.of_nat (length items) >? max_items)%Z eqn:E; [reflexivity|].
    rewrite Z.gtb_ltb in E. apply Z.ltb_ge in E. lia.
  - intros Hlen. destruct items as [|i0 rest] eqn:Ei; [reflexivity|].
    rewrite <- Ei in *.
    assert (Hne : items <> []) by (rewrite Ei; discriminate).
    rewrite (build_digest_message_eq items max_items Hne).
    rewrite slice_to_nonneg by exact Hmax.
    rewrite firstn_all2 by lia.
    destruct (Z.of_nat (length items) >? max_items)%Z eqn:E.
    + rewrite Z.gtb_ltb in E. apply Z.ltb_lt in E. lia.
    + now rewrite app_nil_r.
  - intros l n. apply digest_lines_no_note.
Qed.

Lemma build_digest_message_cap_witness :
  (0 <= 20)%Z
  /\ (20 < Z.of_nat (length many_items))%Z
  /\ build_digest_message many_items 20
     = join NEWLINE
         (digest_lines (firstn (Z.to_nat 20) many_items)
          ++ [omitted_note (Z.of_nat (length many_items) - 20)]).
Proof.
  assert (H0 : (0 <= 20)%Z) by (vm_compute; discriminate).
  assert (H1 : (20 < Z.of_nat (length many_items))%Z)
    by (vm_compute; reflexivity).
  split; [exact H0|]. split; [exact H1|].
  exact (proj1 (build_digest_message_cap many_items 20 H0) H1).
Defined.

Example many_items_note :
  omitted_note (Z.of_nat (length many_items) - 20)
  = NEWLINE ++ utf8 "…외 5건은 HTML/JSON 파일을 확인하세요.".
Proof. vm_compute. reflexivity. Qed.


Example markup_item_link_raw :
  contains (build_digest_message [markup_item] 20)
           (utf8 "?a=<b>&c") = true
  /\ contains (build_digest_message [markup_item] 20)
              (utf8 "<script>") = false.
Proof. split; vm_compute; reflexivity. Qed.



Example markup_item_summary_escaped :
  contains (build_digest_message [markup_item] 20)
           (utf8 "1) &lt;script&gt;alert(1)&lt;/script&gt;") = true.
Proof. vm_compute. reflexivity. Qed.

(* ================================================================= *)
(** ** Deep links *)

Lemma startswith_skipn (p s : pystr) :
  startswith p s = true -> s = p ++ skipn (length p) s.
Proof.
  revert s. induction p as [|a p' IH]; intros s; [reflexivity|].
  destruct s as [|b s']; simpl; [discriminate|].
  intros H. apply andb_prop in H. destruct H as [Hab Hrest].
  apply N.eqb_eq in Hab. subst b. f_equal. now apply IH.
Qed.

(** C10: the link of a message is a function of the channel and the message
    id.  With a (non-empty) username it is
    [https://t.me/<username>/<message_id>]; without one it is
    [https://t.me/c/<internal>/<message_id>], where [<internal>] is the
    decimal form of the absolute channel id without its leading [100]
    whenever that form starts with [100], and the decimal form itself
    otherwise. *)
Theorem build_message_link_shape (channel : Channel) (message_id : Z) :
  (forall u, chan_username channel = Some u -> u <> [] ->
     build_message_link channel message_id
     = utf8 "https://t.me/" ++ u ++ utf8 "/" ++ str_of_int message_id)
  /\ (chan_username channel = None \/ chan_username channel = Some [] ->
      exists internal,
        build_message_link channel message_id
        = utf8 "https://t.me/c/" ++ internal ++ utf8 "/"
          ++ str_of_int message_id
        /\ (startswith (utf8 "100") (str_of_int (Z.abs (chan_id channel)))
            = true ->
            str_of_int (Z.abs (chan_id channel)) = utf8 "100" ++ internal)
        /\ (startswith (utf8 "100") (str_of_int (Z.abs (chan_id channel)))
            = false ->
            internal = str_of_int (Z.abs (chan_id channel)))).
Proof.
  split.
  - intros u Hu Hne. unfold build_message_link. rewrite Hu.
    destruct u as [|c u']; [now elim Hne | reflexivity].
  - intros Hnone.
    assert (Hf : truthy (chan_username channel) = false)
      by (destruct Hnone as [-> | ->]; reflexivity).
    unfold build_message_link. rewrite Hf.
    destruct (startswith (utf8 "100") (str_of_int (Z.abs (chan_id channel))))
      eqn:E.
    + exists (skipn 3 (str_of_int (Z.abs (chan_id channel)))).
      split; [reflexivity|]. split; [|discriminate].
      intros _. exact (startswith_skipn _ _ E).
    + exists (str_of_int (Z.abs (chan_id channel))).
      split; [reflexivity|]. split; [discriminate | reflexivity].
Qed.

Lemma build_message_link_shape_witness :
  build_message_link {| chan_id := 7; chan_username := Some (utf8 "durov") |} 42
  = utf8 "https://t.me/durov/42"
  /\ build_message_link {| chan_id := -1001234567890; chan_username := None |} 42
     = utf8 "https://t.me/c/1234567890/42"
  /\ build_message_link {| chan_id := 1005; chan_username := None |} 42
     = utf8 "https://t.me/c/5/42".
Proof.
  split.
  - rewrite (proj1 (build_message_link_shape
                      {| chan_id := 7; chan_username := Some (utf8 "durov") |}
                      42) (utf8 "durov") eq_refl ltac:(discriminate)).
    vm_compute. reflexivity.
  - split; vm_compute; reflexivity.
Defined.

(* ================================================================= *)
(** ** Summarizer *)

Lemma nonempty_false (s : pystr) : s <> [] -> negb (nonempty s) = false.
Proof. destruct s; [intros H; now elim H | reflexivity]. Qed.

Lemma requests_made_request (w : trace) (req : request) :
  requests_made (w ++ [Requested req]) = S (requests_made w).
Proof.
  unfold requests_made. rewrite filter_app, length_app. simpl. lia.
Qed.

Lemma requests_made_warned (w : trace) (e : exn) :
  requests_made (w ++ [Warned e]) = requests_made w.
Proof.
  unfold requests_made. rewrite filter_app, length_app. simpl. lia.
Qed.

Section SummarizerFacts.
Variable net : nat -> request -> net_outcome.

(** One call of the remote adapter sends exactly one request, whatever
    its outcome. *)
Lemma summarize_remote_one_request (self : Summarizer) (text : pystr)
    (w : trace) :
  requests_made (snd (_summarize_remote net self text w))
  = S (requests_made w).
Proof.
  unfold _summarize_remote, bind, requests_post.
  destruct (net (requests_made w) _) as [|r]; simpl;
    [apply requests_made_request|].
  unfold raise_for_status, content_of, raise, ret.
  destruct ((400 <=? status_code r)%Z && (status_code r <? 600)%Z); simpl;
    [apply requests_made_request|].
  destruct (payload r); simpl; apply requests_made_request.
Qed.

(** What [summarize] does, by the outcome of the remote call. *)
Lemma summarize_cases (self : Summarizer) (text : pystr) (w : trace) :
  normalize_text (Some text) <> [] ->
  summarize net self text w =
  if truthy (api_key self)
  then match _summarize_remote net self (normalize_text (Some text)) w with
       | (Returned v, w1) => (Returned v, w1)
       | (Raised e, w1) =>
           (Returned (summarize_locally (normalize_text (Some text)) 3),
            w1 ++ [Warned e])
       end
  else (Returned (summarize_locally (normalize_text (Some text)) 3), w).
Proof.
  intros Hne. unfold summarize. rewrite (nonempty_false _ Hne).
  destruct (truthy (api_key self)); [|reflexivity].
  unfold bind at 1, try_except, bind at 1.
  destruct (_summarize_remote net self (normalize_text (Some text)) w)
    as [[v|e] w1]; reflexivity.
Qed.

(** [summarize] always returns, and sends at most one request. *)
Lemma summarize_returns (self : Summarizer) (text : pystr) (w : trace) :
  exists v w',
    summarize net self text w = (Returned v, w')
    /\ (requests_made w' <= requests_made w + 1)%nat.
Proof.
  destruct (normalize_text (Some text)) as [|c t] eqn:E.
  - exists NO_TEXT, w. unfold summarize. rewrite E. split; [reflexivity | lia].
  - assert (Hne : normalize_text (Some text) <> [])
      by (rewrite E; discriminate).
    rewrite (summarize_cases self text w Hne).
    destruct (truthy (api_key self)); [|eexists; eexists; split;
                                        [reflexivity | lia]].
    pose proof (summarize_remote_one_request
                  self (normalize_text (Some text)) w) as H1.
    destruct (_summarize_remote net self (normalize_text (Some text)) w)
      as [[v|e] w1]; simpl in H1; eexists; eexists;
      (split; [reflexivity|]); rewrite ?requests_made_warned; lia.
Qed.

(** C1: when the remote call fails on a text whose normalization is not
    empty, [summarize] returns (it does not raise) the local summary of
    the normalized text, and at most one request was sent. *)
Theorem summarize_remote_failure
    (self : Summarizer) (text : pystr) (w w1 : trace) (e : exn) :
  normalize_text (Some text) <> [] ->
  _summarize_remote net self (normalize_text (Some text)) w = (Raised e, w1) ->
  exists w',
    summarize net self text w
    = (Returned (summarize_locally (normalize_text (Some text)) 3), w')
    /\ (requests_made w' <= requests_made w + 1)%nat.
Proof.
  intros Hne Hfail. rewrite (summarize_cases self text w Hne).
  pose proof (summarize_remote_one_request
                self (normalize_text (Some text)) w) as H1.
  rewrite Hfail in *. simpl in H1.
  destruct (truthy (api_key self)); eexists; (split; [reflexivity|]);
    rewrite ?requests_made_warned; lia.
Qed.

(** C2: when the normalized text is empty, [summarize] returns the fixed
    sentinel and leaves the trace as it was: no request is sent. *)
Theorem summarize_empty_text (self : Summarizer) (text : pystr) (w : trace) :
  normalize_text (Some text) = [] ->
  summarize net self text w = (Returned NO_TEXT, w).
Proof. intros E. unfold summarize. rewrite E. reflexivity. Qed.

(** C8: with a credential configured, when the remote call succeeds with
    [V] on a text whose normalization is not empty, [summarize] returns
    exactly [V]. *)
Theorem summarize_remote_success
    (self : Summarizer) (text V : pystr) (w w1 : trace) :
  normalize_text (Some text) <> [] ->
  truthy (api_key self) = true ->
  _summarize_remote net self (normalize_text (Some text)) w = (Returned V, w1) ->
  summarize net self text w = (Returned V, w1).
Proof.
  intros Hne Hkey Hok. rewrite (summarize_cases self text w Hne).
  now rewrite Hkey, Hok.
Qed.
End SummarizerFacts.

(** A text of whitespace only normalizes to the empty string. *)
Lemma normalize_text_blank (s : pystr) :
  forallb is_space s = true -> normalize_text (Some s) = [].
Proof.
  intros H. unfold normalize_text, strip, strip_by, lstrip_by. simpl or_empty.
  now rewrite (drop_while_all is_space s H).
Qed.

Lemma summarize_remote_failure_witness :
  exists w',
    summarize down_net sample_summarizer (utf8 " Hello   world ") []
    = (Returned (utf8 "• Hello world"), w')
    /\ (requests_made w' <= 1)%nat.
Proof.
  eapply (summarize_remote_failure down_net sample_summarizer
            (utf8 " Hello   world ") [] _ ConnectionError).
  - vm_compute. discriminate.
  - vm_compute. reflexivity.
Defined.

Lemma summarize_empty_text_witness :
  summarize (reply_net (utf8 "unused")) sample_summarizer
            [32; 9; 10] []
  = (Returned (utf8 "(텍스트 없음)"), []).
Proof.
  apply (summarize_empty_text (reply_net (utf8 "unused")) sample_summarizer
           [32; 9; 10] []).
  vm_compute. reflexivity.
Defined.

Lemma summarize_remote_success_witness :
  fst (summarize (reply_net (utf8 " • remote says so ")) sample_summarizer
                 (utf8 "Hello world") [])
  = Returned (utf8 "• remote says so").
Proof.
  erewrite (summarize_remote_success (reply_net (utf8 " • remote says so "))
              sample_summarizer (utf8 "Hello world")).
  - reflexivity.
  - vm_compute. discriminate.
  - reflexivity.
  - vm_compute. reflexivity.
Defined.

(* ================================================================= *)
(** ** The collector *)

(** A loop whose body always returns and keeps an invariant returns and
    keeps it. *)
Lemma for_each_returns {A S} (P : S -> Prop) (l : list A)
    (body : S -> A -> M S) :
  (forall s x w, P s -> exists s' w', body s x w = (Returned s', w') /\ P s') ->
  forall s w, P s ->
    exists s' w', for_each l body s w = (Returned s', w') /\ P s'.
Proof.
  intros Hbody. induction l as [|x rest IH]; intros s w Hs; simpl.
  - exists s, w. split; [reflexivity | exact Hs].
  - destruct (Hbody s x w Hs) as (s1 & w1 & E1 & Hs1).
    destruct (IH s1 w1 Hs1) as (s2 & w2 & E2 & Hs2).
    exists s2, w2. split; [|exact Hs2].
    unfold bind. now rewrite E1.
Qed.

Section CollectorFacts.
Variable net : nat -> request -> net_outcome.
Variable getenv : pystr -> option pystr.
Variable strftime_local : Z -> pystr.
Hypothesis Hnet : completions_not_blank net.

Lemma summarize_remote_not_blank (self : Summarizer) (text v : pystr)
    (w w1 : trace) :
  _summarize_remote net self text w = (Returned v, w1) -> v <> [].
Proof.
  unfold _summarize_remote, bind, requests_post.
  destruct (net (requests_made w) _) as [|r] eqn:En; [discriminate|].
  unfold raise_for_status, content_of, raise, ret.
  destruct ((400 <=? status_code r)%Z && (status_code r <? 600)%Z) eqn:Es;
    [discriminate|].
  destruct (payload r) as [| | |s] eqn:Ep; try discriminate.
  intros H. injection H as <- _. exact (Hnet _ _ r s En Es Ep).
Qed.

Lemma summarize_not_blank (self : Summarizer) (text : pystr) (w : trace) :
  exists v w', summarize net self text w = (Returned v, w') /\ v <> [].
Proof.
  destruct (normalize_text (Some text)) as [|c t] eqn:E.
  - exists NO_TEXT, w. unfold summarize. rewrite E.
    split; [reflexivity | discriminate].
  - assert (Hne : normalize_text (Some text) <> [])
      by (rewrite E; discriminate).
    rewrite (summarize_cases net self text w Hne).
    assert (Hloc : summarize_locally (normalize_text (Some text)) 3 <> [])
      by (apply summarize_locally_nonempty; lia).
    destruct (truthy (api_key self));
      [|eexists; eexists; split; [reflexivity | exact Hloc]].
    destruct (_summarize_remote net self (normalize_text (Some text)) w)
      as [[v|e] w1] eqn:Er; eexists; eexists; (split; [reflexivity|]).
    + eapply summarize_remote_not_blank, Er.
    + exact Hloc.
Qed.

End CollectorFacts.



Example fetch_remote_summary :
  fst (fetch_unread_messages (reply_net (utf8 " • ok ")) key_env
         sample_strftime one_message_client 50 [])
  = Returned
      [{| channel_title := utf8 "News"; channel_id := 1005;
          message_id := 7; date := utf8 "2024-01-01 09:00";
          text := utf8 "Rates were cut today.";
          summary := utf8 "• ok";
          message_link := utf8 "https://t.me/news/7" |}].
Proof. vm_compute. reflexivity. Qed.

(* ================================================================= *)
(** ** More on the text normalizer *)

(** X1: whatever whitespace the input holds (tabs, line feeds, no-break
    spaces, ...), the only whitespace character of the normalized text is
    U+0020. *)
Theorem normalize_text_only_spaces (x : option pystr) (c : char) :
  In c (normalize_text x) -> is_space c = true -> c = 32.
Proof.
  intros Hin Hc.
  exact (single_spaced_space _ c (normalize_text_single_spaced x) Hin Hc).
Qed.

Lemma normalize_text_only_spaces_witness :
  In 32 (normalize_text (Some [97; 9; 10; 98])) /\ 32 = 32.
Proof.
  assert (H : In 32 (normalize_text (Some [97; 9; 10; 98])))
    by (vm_compute; tauto).
  split; [exact H|].
  exact (normalize_text_only_spaces (Some [97; 9; 10; 98]) 32 H eq_refl).
Defined.

Lemma ink_squeeze (b : bool) (s : pystr) : ink (squeeze b s) = ink s.
Proof.
  revert b. induction s as [|c t IH]; intros b; [reflexivity|].
  simpl. destruct (is_space c) eqn:E.
  - destruct b; simpl; rewrite ?E; simpl; apply IH.
  - simpl. rewrite E. simpl. f_equal. apply IH.
Qed.

Lemma ink_drop_while (s : pystr) : ink (drop_while is_space s) = ink s.
Proof.
  induction s as [|c t IH]; [reflexivity|].
  simpl. destruct (is_space c) eqn:E; simpl; [exact IH|].
  now rewrite E.
Qed.

Lemma ink_rev (s : pystr) : ink (rev s) = rev (ink s).
Proof. apply filter_rev. Qed.

Lemma ink_strip (s : pystr) : ink (strip s) = ink s.
Proof.
  unfold strip, strip_by, rstrip_by, lstrip_by.
  now rewrite ink_rev, ink_drop_while, ink_rev, rev_involutive,
    ink_drop_while.
Qed.

Lemma ink_normalize_text (x : option pystr) :
  ink (normalize_text x) = ink (or_empty x).
Proof.
  rewrite normalize_text_squeeze, ink_squeeze. apply ink_strip.
Qed.

(** X2: normalizing removes and rewrites whitespace only: the characters
    that are not whitespace come out unchanged and in the same order. *)
Theorem normalize_text_keeps_ink (x : option pystr) :
  ink (normalize_text x) = ink (or_empty x).
Proof. apply ink_normalize_text. Qed.

Lemma ink_nil_blank (s : pystr) : ink s = [] -> forallb is_space s = true.
Proof.
  induction s as [|c t IH]; [reflexivity|].
  simpl. destruct (is_space c); simpl; [exact IH | discriminate].
Qed.

(** X3: the normalized text is empty exactly when the input is [None],
    empty or made of whitespace only. *)
Theorem normalize_text_empty_iff (x : option pystr) :
  normalize_text x = [] <-> forallb is_space (or_empty x) = true.
Proof.
  split.
  - intros E. apply ink_nil_blank.
    rewrite <- ink_normalize_text, E. reflexivity.
  - destruct x as [s|]; [apply normalize_text_blank | reflexivity].
Qed.

Lemma drop_while_length (p : char -> bool) (s : pystr) :
  (length (drop_while p s) <= length s)%nat.
Proof.
  induction s as [|c t IH]; simpl; [lia|].
  destruct (p c); simpl; lia.
Qed.

Lemma strip_by_length (p : char -> bool) (s : pystr) :
  (length (strip_by p s) <= length s)%nat.
Proof.
  unfold strip_by, rstrip_by, lstrip_by. rewrite length_rev.
  pose proof (drop_while_length p (rev (drop_while p s))) as H1.
  pose proof (drop_while_length p s) as H2.
  rewrite length_rev in H1. lia.
Qed.

Lemma squeeze_length (b : bool) (s : pystr) :
  (length (squeeze b s) <= length s)%nat.
Proof.
  revert b. induction s as [|c t IH]; intros b; simpl; [lia|].
  destruct (is_space c); [destruct b|]; simpl;
    [pose proof (IH true) | pose proof (IH true) | pose proof (IH false)];
    lia.
Qed.

(** X4: normalizing never makes a text longer. *)
Theorem normalize_text_length (x : option pystr) :
  (length (normalize_text x) <= length (or_empty x))%nat.
Proof.
  rewrite normalize_text_squeeze.
  pose proof (squeeze_length false (strip (or_empty x))).
  pose proof (strip_by_length is_space (or_empty x)).
  unfold strip in *. lia.
Qed.

(* ================================================================= *)
(** ** More on the local summarizer *)

Lemma join_newline_length (parts : list pystr) (b : nat) :
  parts <> [] ->
  Forall (fun x => (length x <= b)%nat) parts ->
  (length (join NEWLINE parts) + 1 <= (b + 1) * length parts)%nat.
Proof.
  induction parts as [|x rest IH]; [intros H; now elim H|].
  intros _ H. inversion H as [|? ? Hx Hrest]; subst.
  destruct rest as [|y rest'].
  - simpl. lia.
  - change (join NEWLINE (x :: y :: rest'))
      with (x ++ NEWLINE ++ join NEWLINE (y :: rest')).
    rewrite !length_app. change (length NEWLINE) with 1%nat.
    assert (Hne : y :: rest' <> []) by discriminate.
    specialize (IH Hne Hrest).
    change (length (x :: y :: rest')) with (S (length (y :: rest'))).
    nia.
Qed.

(** X5: for any text, normalized or not, and [max_sentences >= 1], the
    local summary has at most [223 * max_sentences - 1] characters. *)
Theorem summarize_locally_length (text : pystr) (max_sentences : Z) :
  (1 <= max_sentences)%Z ->
  (Z.of_nat (length (summarize_locally text max_sentences))
   <= 223 * max_sentences - 1)%Z.
Proof.
  intros Hn. rewrite summarize_locally_selected.
  pose proof (selected_fragments_nonempty text max_sentences Hn) as Hne.
  assert (Hk : (Z.of_nat (length (selected_fragments text max_sentences))
                <= max_sentences)%Z)
    by (unfold selected_fragments; apply slice_to_length; lia).
  set (sel := selected_fragments text max_sentences) in *.
  assert (Hparts : map (fun s => BULLET ++ firstn 220 s) sel <> [])
    by (destruct sel; [now elim Hne | discriminate]).
  assert (Hb : Forall (fun x => (length x <= 222)%nat)
                      (map (fun s => BULLET ++ firstn 220 s) sel)).
  { apply Forall_forall. intros x Hx. apply in_map_iff in Hx.
    destruct Hx as (s & <- & _). rewrite length_app.
    pose proof (firstn_le_length 220 s).
    change (length BULLET) with 2%nat. lia. }
  pose proof (join_newline_length _ 222 Hparts Hb) as H.
  rewrite length_map in H.
  match goal with |- (Z.of_nat ?t <= _)%Z => set (L := t) end.
  match type of Hk with (Z.of_nat ?k <= _)%Z => set (K := k) in Hk end.
  assert (HL : (L + 1 <= 223 * K)%nat) by exact H.
  clearbody L K. lia.
Qed.

Lemma summarize_locally_length_witness :
  (1 <= 3)%Z
  /\ (Z.of_nat (length (summarize_locally (utf8 "short") 3))
      <= 223 * 3 - 1)%Z.
Proof.
  assert (H : (1 <= 3)%Z) by (vm_compute; discriminate).
  split; [exact H|].
  exact (summarize_locally_length (utf8 "short") 3 H).
Defined.

Lemma sentence_break_newline (prev : option char) (c : char) (t : pystr) :
  c = 10 -> exists k, sentence_break prev (c :: t) = Some (S k).
Proof.
  intros ->. unfold sentence_break.
  change (take_while is_space (10 :: t)) with (10 :: take_while is_space t).
  change (take_while (N.eqb 10) (10 :: t))
    with (10 :: take_while (N.eqb 10) t).
  destruct (after_sentence_end prev); eexists; reflexivity.
Qed.

Lemma split_go_no_newline (s : pystr) :
  forall prev skip cur,
    ~ In 10 cur ->
    Forall (fun chunk => ~ In 10 chunk)
           (split_go sentence_break prev skip cur s).
Proof.
  induction s as [|c t IH]; intros prev skip cur Hcur; simpl.
  - constructor; [|constructor]. intros H. apply Hcur. now apply in_rev.
  - destruct skip as [|k]; [|now apply IH].
    destruct (sentence_break prev (c :: t)) as [[|k]|] eqn:E.
    + apply IH. intros [Hc|H]; [|now apply Hcur].
      destruct (sentence_break_newline prev c t Hc) as (k & Ek).
      rewrite E in Ek. discriminate.
    + constructor.
      * intros H. apply Hcur. now apply in_rev.
      * apply IH. intros [].
    + apply IH. intros [Hc|H]; [|now apply Hcur].
      destruct (sentence_break_newline prev c t Hc) as (k & Ek).
      rewrite E in Ek. discriminate.
Qed.

Lemma re_split_chunk_no_newline (text chunk : pystr) :
  In chunk (re_split sentence_break text) -> ~ In 10 chunk.
Proof.
  intros Hin.
  pose proof (split_go_no_newline text None 0%nat [] (fun H => H)) as H.
  rewrite Forall_forall in H. exact (H chunk Hin).
Qed.

(** X6: no piece that the sentence splitter returns holds a line feed,
    whatever the text. *)
Theorem re_split_no_newline (text chunk : pystr) :
  In chunk (re_split sentence_break text) -> ~ In 10 chunk.
Proof. apply re_split_chunk_no_newline. Qed.

Lemma re_split_no_newline_witness :
  In (utf8 "b") (re_split sentence_break [97; 10; 10; 98])
  /\ ~ In 10 (utf8 "b").
Proof.
  assert (H : In (utf8 "b") (re_split sentence_break [97; 10; 10; 98]))
    by (vm_compute; tauto).
  split; [exact H|].
  exact (re_split_no_newline [97; 10; 10; 98] (utf8 "b") H).
Defined.

Lemma summarize_locally_lines_of (text : pystr) (n : Z) :
  (forall s, In s (selected_fragments text n) -> ~ In 10 s) ->
  (1 <= n)%Z ->
  text_lines (summarize_locally text n) =
  map (fun s => BULLET ++ firstn 220 s) (selected_fragments text n).
Proof.
  intros Hsel Hn. rewrite summarize_locally_selected.
  apply (split_on_join 10).
  - pose proof (selected_fragments_nonempty text n Hn) as Hne.
    destruct (selected_fragments text n); [now elim Hne | discriminate].
  - apply Forall_forall. intros x Hx. apply in_map_iff in Hx.
    destruct Hx as (s & <- & Hs). intros Hin.
    apply in_app_or in Hin. destruct Hin as [Hin|Hin].
    + vm_compute in Hin. intuition discriminate.
    + apply firstn_In in Hin. exact (Hsel s Hs Hin).
Qed.

(** X7: for any text, normalized or not, in which some piece is longer
    than 15 characters after trimming, every line of the local summary
    starts with the bullet marker and has at most 222 characters, and there
    are at most [max_sentences] lines. *)
Theorem summarize_locally_raw_text (text : pystr) (max_sentences : Z) :
  (1 <= max_sentences)%Z ->
  (exists chunk, In chunk (re_split sentence_break text)
                 /\ (15 < length (strip chunk))%nat) ->
  Forall (fun line => startswith BULLET line = true
                      /\ (length line <= 222)%nat)
         (text_lines (summarize_locally text max_sentences))
  /\ (Z.of_nat (length (text_lines (summarize_locally text max_sentences)))
      <= max_sentences)%Z.
Proof.
  intros Hn (chunk & Hchunk & Hlong).
  assert (Hsel : forall s, In s (selected_fragments text max_sentences) ->
                           ~ In 10 s).
  { intros s Hs. unfold selected_fragments in Hs. apply slice_to_In in Hs.
    destruct (map _ (filter _ (re_split sentence_break text)))
      as [|f fs] eqn:E.
    - exfalso.
      assert (Hin : In (strip_chars (utf8 " -•") chunk)
                       (map (strip_chars (utf8 " -•"))
                            (filter (fun chunk =>
                                       (15 <? length (strip chunk))%nat)
                                    (re_split sentence_break text)))).
      { apply in_map, filter_In. split; [exact Hchunk|].
        now apply Nat.ltb_lt. }
      rewrite E in Hin. exact Hin.
    - rewrite <- E in Hs. apply in_map_iff in Hs.
      destruct Hs as (ch & <- & Hch). apply filter_In in Hch.
      destruct Hch as [Hch _]. intros H10.
      apply strip_by_incl in H10.
      exact (re_split_chunk_no_newline text ch Hch H10). }
  rewrite (summarize_locally_lines_of text max_sentences Hsel Hn). split.
  - apply Forall_forall. intros line Hline. apply in_map_iff in Hline.
    destruct Hline as (s & <- & _). split; [reflexivity|].
    rewrite length_app. pose proof (firstn_le_length 220 s).
    change (length BULLET) with 2%nat. lia.
  - rewrite length_map. unfold selected_fragments.
    apply slice_to_length. lia.
Qed.

Lemma summarize_locally_raw_text_witness :
  Forall (fun line => startswith BULLET line = true
                      /\ (length line <= 222)%nat)
         (text_lines (summarize_locally
                        (utf8 "The first sentence is long." ++ NEWLINE
                         ++ utf8 "tiny") 3))
  /\ (Z.of_nat (length (text_lines (summarize_locally
                                      (utf8 "The first sentence is long."
                                       ++ NEWLINE ++ utf8 "tiny") 3)))
      <= 3)%Z.
Proof.
  apply (summarize_locally_raw_text
           (utf8 "The first sentence is long." ++ NEWLINE ++ utf8 "tiny") 3).
  - vm_compute. discriminate.
  - exists (utf8 "The first sentence is long."). split.
    + vm_compute. tauto.
    + vm_compute. lia.
Defined.

Lemma split_go_length (m : matcher) (s : pystr) :
  forall prev skip cur,
    Forall (fun chunk => (length chunk <= length cur + length s)%nat)
           (split_go m prev skip cur s).
Proof.
  induction s as [|a t IH]; intros prev skip cur; simpl.
  - constructor; [|constructor]. rewrite length_rev. lia.
  - assert (Hstep : forall prev' k cur',
               (length cur' <= S (length cur))%nat ->
               Forall (fun chunk =>
                         (length chunk <= length cur + S (length t))%nat)
                      (split_go m prev' k cur' t)).
    { intros prev' k cur' Hcur.
      eapply Forall_impl; [|apply (IH prev' k cur')].
      intros chunk H. simpl in H. lia. }
    destruct skip as [|k].
    + destruct (m prev (a :: t)) as [[|k]|].
      * apply Hstep. simpl. lia.
      * constructor; [rewrite length_rev; lia|].
        apply Hstep. simpl. lia.
      * apply Hstep. simpl. lia.
    + apply Hstep. lia.
Qed.

Lemma filter_none {A} (f : A -> bool) (l : list A) :
  (forall x, In x l -> f x = false) -> filter f l = [].
Proof.
  induction l as [|a l' IH]; intros H; [reflexivity|].
  simpl. rewrite (H a (or_introl eq_refl)).
  apply IH. intros x Hx. apply H. now right.
Qed.

Lemma slice_to_singleton {A} (n : Z) (x : A) :
  (1 <= n)%Z -> slice_to n [x] = [x].
Proof.
  intros Hn. unfold slice_to.
  destruct (n <? 0)%Z eqn:E; [apply Z.ltb_lt in E; lia|].
  apply firstn_all2. simpl. lia.
Qed.

(** X8: a text of at most 15 characters has no piece that passes the
    length filter, so the local summary is the whole text behind one
    bullet marker. *)
Theorem summarize_locally_short_text (text : pystr) (max_sentences : Z) :
  (length text <= 15)%nat ->
  (1 <= max_sentences)%Z ->
  summarize_locally text max_sentences = BULLET ++ text.
Proof.
  intros Hlen Hn. rewrite summarize_locally_selected.
  unfold selected_fragments. rewrite filter_none.
  - change (map (strip_chars (utf8 " -•")) []) with (@nil pystr).
    cbv iota. rewrite (slice_to_singleton _ _ Hn). cbn [map join].
    rewrite (@firstn_all2 _ 240 text) by lia.
    rewrite (@firstn_all2 _ 220 text) by lia. reflexivity.
  - intros chunk Hchunk. apply Nat.ltb_ge.
    pose proof (split_go_length sentence_break text None 0%nat []) as H.
    rewrite Forall_forall in H. specialize (H chunk Hchunk). simpl in H.
    pose proof (strip_by_length is_space chunk). unfold strip. lia.
Qed.

Lemma summarize_locally_short_text_witness :
  summarize_locally (utf8 "ok. go") 3 = BULLET ++ utf8 "ok. go".
Proof.
  apply (summarize_locally_short_text (utf8 "ok. go") 3).
  - vm_compute. repeat constructor.
  - vm_compute. discriminate.
Defined.

(* ================================================================= *)
(** ** More on deep links *)

Lemma uint_chars_inj (u u' : Decimal.uint) :
  uint_chars u = uint_chars u' -> u = u'.
Proof.
  revert u'. induction u as [|r IH|r IH|r IH|r IH|r IH|r IH|r IH|r IH|r IH|r IH];
    intros u' H; destruct u'; simpl in H; try discriminate; try reflexivity;
    unfold digit_char in H; simpl in H; try discriminate;
    injection H as H; f_equal; now apply IH.
Qed.

Lemma uint_chars_digits (u : Decimal.uint) :
  Forall (fun c => 48 <= c <= 57) (uint_chars u).
Proof.
  induction u; simpl; constructor; try assumption; unfold digit_char; lia.
Qed.

Lemma str_of_int_inj (a b : Z) : str_of_int a = str_of_int b -> a = b.
Proof.
  unfold str_of_int. intros H.
  rewrite <- (DecimalZ.of_to a), <- (DecimalZ.of_to b).
  destruct (Z.to_int a) as [u|u], (Z.to_int b) as [u'|u'].
  - now rewrite (uint_chars_inj _ _ H).
  - pose proof (uint_chars_digits u) as Hd. rewrite H in Hd.
    inversion Hd as [|? ? Hc _]; subst. lia.
  - pose proof (uint_chars_digits u') as Hd. rewrite <- H in Hd.
    inversion Hd as [|? ? Hc _]; subst. lia.
  - injection H as H. now rewrite (uint_chars_inj _ _ H).
Qed.

(** X9: within one channel, two messages have the same link only if they
    have the same id. *)
Theorem build_message_link_message_inj (channel : Channel) (m1 m2 : Z) :
  build_message_link channel m1 = build_message_link channel m2 -> m1 = m2.
Proof.
  unfold build_message_link. intros H. apply str_of_int_inj.
  destruct (truthy (chan_username channel));
    repeat (apply app_inv_head in H); exact H.
Qed.

Lemma build_message_link_message_inj_witness :
  build_message_link {| chan_id := 1005; chan_username := None |} 42
  = build_message_link {| chan_id := 1005; chan_username := None |} 42
  /\ 42%Z = 42%Z.
Proof.
  split; [reflexivity|].
  exact (build_message_link_message_inj
           {| chan_id := 1005; chan_username := None |} 42 42 eq_refl).
Defined.

Lemma replace_char_absent (old : char) (new s : pystr) :
  ~ In old s -> replace_char old new s = s.
Proof.
  induction s as [|c t IH]; intros H; [reflexivity|].
  unfold replace_char in *. simpl.
  destruct (c =? old) eqn:E.
  - apply N.eqb_eq in E. elim H. now left.
  - simpl. f_equal. apply IH. intros Hin. apply H. now right.
Qed.

Lemma plain_not_in (s : pystr) (c : char) :
  plain s = true ->
  c = 38 \/ c = 60 \/ c = 62 \/ c = 34 \/ c = 39 -> ~ In c s.
Proof.
  unfold plain. intros Hp Hc Hin.
  rewrite forallb_forall in Hp. specialize (Hp c Hin).
  apply negb_true_iff in Hp.
  destruct Hc as [->|[->|[->|[->| ->]]]]; discriminate.
Qed.

(** A text without [&], [<], [>] and quotes is left as it is by
    [html.escape]. *)
Lemma html_escape_plain (s : pystr) : plain s = true -> html_escape s = s.
Proof.
  intros Hp. unfold html_escape.
  rewrite (replace_char_absent 38) by (apply plain_not_in; tauto).
  rewrite (replace_char_absent 60) by (apply plain_not_in; tauto).
  rewrite (replace_char_absent 62) by (apply plain_not_in; tauto).
  rewrite (replace_char_absent 34) by (apply plain_not_in; tauto).
  apply replace_char_absent, plain_not_in; tauto.
Qed.

Lemma plain_app (a b : pystr) : plain (a ++ b) = plain a && plain b.
Proof. apply forallb_app. Qed.

Lemma plain_str_of_int (z : Z) : plain (str_of_int z) = true.
Proof.
  assert (Hd : forall u, plain (uint_chars u) = true).
  { intros u. unfold plain. apply forallb_forall. intros c Hc.
    pose proof (uint_chars_digits u) as H. rewrite Forall_forall in H.
    specialize (H c Hc). apply negb_true_iff.
    repeat (apply orb_false_intro); apply N.eqb_neq; lia. }
  unfold str_of_int. destruct (Z.to_int z) as [u|u]; [apply Hd|].
  change (45 :: uint_chars u) with ([45] ++ uint_chars u).
  rewrite plain_app, Hd. reflexivity.
Qed.

Lemma plain_skipn (n : nat) (s : pystr) : plain s = true -> plain (skipn n s) = true.
Proof.
  intros H. rewrite <- (firstn_skipn n s) in H.
  rewrite plain_app in H. now apply andb_prop in H.
Qed.

(** X10: when the channel's username (if any) holds none of the characters
    that [html.escape] rewrites, the link holds none either, so escaping the
    link would not change it. *)
Theorem build_message_link_plain (channel : Channel) (message_id : Z) :
  plain (or_empty (chan_username channel)) = true ->
  plain (build_message_link channel message_id) = true
  /\ html_escape (build_message_link channel message_id)
     = build_message_link channel message_id.
Proof.
  intros Hu.
  assert (Hp : plain (build_message_link channel message_id) = true).
  { unfold build_message_link.
    destruct (truthy (chan_username channel)).
    - rewrite !plain_app, Hu, plain_str_of_int. reflexivity.
    - rewrite !plain_app, plain_str_of_int.
      destruct (startswith _ _);
        [rewrite plain_skipn by apply plain_str_of_int
        | rewrite plain_str_of_int]; reflexivity. }
  split; [exact Hp | now apply html_escape_plain].
Qed.

Lemma build_message_link_plain_witness :
  plain (or_empty (chan_username
                     {| chan_id := 7; chan_username := Some (utf8 "durov") |}))
  = true
  /\ html_escape (build_message_link
                    {| chan_id := 7; chan_username := Some (utf8 "durov") |} 42)
     = build_message_link
         {| chan_id := 7; chan_username := Some (utf8 "durov") |} 42.
Proof.
  assert (H : plain (or_empty (chan_username
                {| chan_id := 7; chan_username := Some (utf8 "durov") |}))
              = true) by (vm_compute; reflexivity).
  split; [exact H|].
  exact (proj2 (build_message_link_plain
                  {| chan_id := 7; chan_username := Some (utf8 "durov") |}
                  42 H)).
Defined.

(* ================================================================= *)
(** ** More on the summarizer *)

(** X11: when the links of the rendered items hold none of the characters
    that [html.escape] rewrites, every link stands in the notification as
    its escaped form. *)
Theorem links_escaped_when_plain (items : list DigestItem) (max_items : Z) :
  items <> [] ->
  (forall item, In item (slice_to max_items items) ->
                plain (message_link item) = true) ->
  links_rendered_escaped items max_items.
Proof.
  intros Hne Hplain item Hin.
  rewrite (html_escape_plain _ (Hplain item Hin)).
  rewrite (build_digest_message_eq items max_items Hne).
  destruct (digest_lines_item _ _ Hin) as (idx & _ & _ & Hl).
  apply contains_join, in_or_app. now left.
Qed.

Lemma links_escaped_when_plain_witness :
  sample_items <> []
  /\ links_rendered_escaped sample_items 20.
Proof.
  assert (H0 : sample_items <> []) by discriminate.
  split; [exact H0|].
  apply (links_escaped_when_plain sample_items 20 H0).
  intros item Hin. vm_compute in Hin.
  destruct Hin as [<-|[<-|[<-|[]]]]; vm_compute; reflexivity.
Defined.

Lemma drop_while_app_all (p : char -> bool) (l x : pystr) :
  forallb p l = true -> drop_while p (l ++ x) = drop_while p x.
Proof.
  induction l as [|c t IH]; simpl; [reflexivity|].
  destruct (p c); simpl; [exact IH | discriminate].
Qed.

Lemma rstrip_by_slashes (base : pystr) (n : nat) :
  rstrip_by (N.eqb 47) (base ++ repeat 47 n) = rstrip_by (N.eqb 47) base.
Proof.
  unfold rstrip_by. rewrite rev_app_distr, drop_while_app_all; [reflexivity|].
  apply forallb_forall. intros c Hc. apply in_rev, repeat_spec in Hc.
  subst c. reflexivity.
Qed.

Section RemoteFacts.
Variable net : nat -> request -> net_outcome.

(** The remote adapter, by the answer of the service. *)
Lemma summarize_remote_eq (self : Summarizer) (text : pystr) (w : trace) :
  _summarize_remote net self text w
  = (match net (requests_made w) (remote_request self text) with
     | Unreachable => Raised ConnectionError
     | Responded r =>
         if is_error_status (status_code r)
         then Raised (HTTPError (status_code r))
         else match payload r with
              | NotJSON => Raised JSONDecodeError
              | NoContentField => Raised LookupError
              | NullContent => Raised AttributeError
              | Content s => Returned (strip s)
              end
     end,
     w ++ [Requested (remote_request self text)]).
Proof.
  unfold _summarize_remote, bind, requests_post.
  change {| url := _; authorization := _; req_model := _;
            system_content := _; user_content := _; timeout := _ |}
    with (remote_request self text).
  destruct (net (requests_made w) (remote_request self text)) as [|r];
    [reflexivity|].
  unfold raise_for_status, content_of, raise, ret, is_error_status.
  destruct ((400 <=? status_code r)%Z && (status_code r <? 600)%Z);
    [reflexivity|].
  destruct (payload r); reflexivity.
Qed.


(** X13: whatever the service does, [summarize] returns a value (it never
    raises) and sends at most one request. *)
Theorem summarize_never_raises (self : Summarizer) (text : pystr) (w : trace) :
  exists v w',
    summarize net self text w = (Returned v, w')
    /\ (requests_made w' <= requests_made w + 1)%nat.
Proof. apply summarize_returns. Qed.

Lemma summarize_offline (self : Summarizer) (text : pystr) (w : trace) :
  truthy (api_key self) = false ->
  summarize net self text w
  = (Returned (if nonempty (normalize_text (Some text))
               then summarize_locally (normalize_text (Some text)) 3
               else NO_TEXT),
     w).
Proof.
  intros Hkey. unfold summarize.
  destruct (nonempty (normalize_text (Some text))); [|reflexivity].
  simpl negb. cbv iota. rewrite Hkey. reflexivity.
Qed.

(** X14: without a credential ([api_key] is [None] or empty), [summarize]
    leaves the trace as it was, so no request is sent and nothing is
    logged; the result is the sentinel or the local summary. *)
Theorem summarize_without_credential
    (self : Summarizer) (text : pystr) (w : trace) :
  truthy (api_key self) = false ->
  summarize net self text w
  = (Returned (if nonempty (normalize_text (Some text))
               then summarize_locally (normalize_text (Some text)) 3
               else NO_TEXT),
     w).
Proof. apply summarize_offline. Qed.


(** X16: slashes at the end of the base URL, however many, make no
    difference to the remote call. *)
Theorem summarize_remote_trailing_slash
    (key : option pystr) (base m text : pystr) (n : nat) (w : trace) :
  _summarize_remote net
    {| api_key := key; base_url := base ++ repeat 47 n; model := m |} text w
  = _summarize_remote net
      {| api_key := key; base_url := base; model := m |} text w.
Proof.
  rewrite !summarize_remote_eq. unfold remote_request.
  cbn [base_url api_key model].
  now rewrite rstrip_by_slashes.
Qed.
End RemoteFacts.

Lemma summarize_without_credential_witness :
  truthy (api_key local_summarizer) = false
  /\ summarize (reply_net (utf8 "unused")) local_summarizer
               (utf8 "Hello world") []
     = (Returned
          (if nonempty (normalize_text (Some (utf8 "Hello world")))
           then summarize_locally
                  (normalize_text (Some (utf8 "Hello world"))) 3
           else NO_TEXT),
        []).
Proof.
  assert (H : truthy (api_key local_summarizer) = false) by reflexivity.
  split; [exact H|].
  exact (summarize_without_credential (reply_net (utf8 "unused"))
           local_summarizer (utf8 "Hello world") [] H).
Defined.


(* ================================================================= *)
(** ** More on the collector *)

(** A loop whose body always returns and extends an invariant over the
    elements done so far returns, with the invariant over all elements. *)
Lemma for_each_invariant {A S} (R : list A -> S -> trace -> Prop)
    (body : S -> A -> M S) (l : list A) :
  (forall done x s w, R done s w ->
     exists s' w', body s x w = (Returned s', w') /\ R (done ++ [x]) s' w') ->
  forall done s w, R done s w ->
    exists s' w', for_each l body s w = (Returned s', w')
                  /\ R (done ++ l) s' w'.
Proof.
  intros Hbody. induction l as [|x rest IH]; intros done s w HR; simpl.
  - exists s, w. rewrite app_nil_r. split; [reflexivity | exact HR].
  - destruct (Hbody done x s w HR) as (s1 & w1 & E1 & HR1).
    destruct (IH (done ++ [x]) s1 w1 HR1) as (s2 & w2 & E2 & HR2).
    exists s2, w2. rewrite <- app_assoc in HR2. split; [|exact HR2].
    unfold bind. now rewrite E1.
Qed.

Lemma requests_made_informed (w : trace) (t : pystr) (n : Z) :
  requests_made (w ++ [Informed t n]) = requests_made w.
Proof.
  unfold requests_made. rewrite filter_app, length_app. simpl. lia.
Qed.

Section RunFacts.
Variable net : nat -> request -> net_outcome.
Variable getenv : pystr -> option pystr.
Variable strftime_local : Z -> pystr.

Lemma summarize_step (text : pystr) (w : trace) :
  exists v w',
    summarize net (Summarizer_init getenv None) text w = (Returned v, w')
    /\ (requests_made w' <= requests_made w + 1)%nat
    /\ (truthy (getenv (utf8 "OPENAI_API_KEY")) = false ->
        requests_made w' = requests_made w /\ v = offline_summary text).
Proof.
  destruct (truthy (getenv (utf8 "OPENAI_API_KEY"))) eqn:Ek.
  - destruct (summarize_returns net (Summarizer_init getenv None) text w)
      as (v & w' & E & Hle).
    exists v, w'. repeat split; try assumption; discriminate.
  - eexists; eexists. split; [|split].
    + apply summarize_offline. exact Ek.
    + lia.
    + intros _. split; reflexivity.
Qed.

Lemma fetch_run (client : TelegramClient) (limit : Z) (w : trace) :
  exists items w',
    fetch_unread_messages net getenv strftime_local client limit w
    = (Returned items, w')
    /\ run_invariant getenv w (expected_items strftime_local client limit) items w'.
Proof.
  unfold fetch_unread_messages, expected_items.
  pose (R := fun (done : list Dialog) (items : list DigestItem) (w' : trace) =>
               run_invariant getenv w
                 (flat_map (fun dialog =>
                              map (item_of strftime_local dialog)
                                  (dialog_messages client limit dialog)) done)
                 items w').
  apply (for_each_invariant R _ (iter_dialogs client)) with (done := []).
  2: { unfold R, run_invariant. simpl. split; [constructor|].
       split; [lia|]. intros _. split; [reflexivity | constructor]. }
  intros done dialog result w0 HR. unfold R in *.
  rewrite flat_map_app. cbn [flat_map]. rewrite app_nil_r.
  unfold dialog_messages.
  destruct (dlg_entity dialog) as [entity|].
  2: { exists result, w0. cbn [map]. rewrite app_nil_r.
       split; [reflexivity | exact HR]. }
  destruct (dlg_unread_count dialog <=? 0)%Z.
  { exists result, w0. cbn [map]. rewrite app_nil_r.
    split; [reflexivity | exact HR]. }
  unfold bind at 1, emit.
  set (base := flat_map _ done) in *.
  set (msgs := rev (filter _ (iter_messages client entity _))).
  pose (R2 := fun (doneM : list Message) (items : list DigestItem)
                  (w' : trace) =>
                run_invariant getenv w
                  (base ++ map (item_of strftime_local dialog)
                               (map (pair entity) doneM))
                  items w').
  change (rev (filter qualifying
                 (iter_messages client entity
                    (Z.min (dlg_unread_count dialog) limit))))
    with msgs.
  apply (for_each_invariant R2 _ msgs) with (done := []).
  2: { unfold R2. cbn [map]. rewrite app_nil_r.
       destruct HR as (H1 & H2 & H3). split; [exact H1|].
       rewrite requests_made_informed. split; assumption. }
  intros doneM msg acc w1 (H1 & H2 & H3).
  destruct (summarize_step
              (first_truthy (msg_raw_text msg) (msg_message msg)) w1)
    as (v & w2 & Ev & Hle & Hoff).
  eexists; exists w2. unfold bind. rewrite Ev. split; [reflexivity|].
  unfold R2, run_invariant. rewrite !map_app, app_assoc. cbn [map].
  split; [|split].
  - apply Forall2_app; [exact H1|]. constructor; [reflexivity | constructor].
  - rewrite length_app. simpl. lia.
  - intros Hk. destruct (H3 Hk) as [Hr Hs]. destruct (Hoff Hk) as [Hr2 ->].
    split; [lia|]. apply Forall_app. split; [exact Hs|].
    constructor; [reflexivity | constructor].
Qed.
End RunFacts.

Lemma first_truthy_nonempty (a b : option pystr) :
  truthy b || truthy a = true -> first_truthy a b <> [].
Proof.
  unfold first_truthy.
  destruct a as [[|c s]|], b as [[|d t]|]; simpl; try discriminate.
Qed.

Lemma expected_items_text (strftime_local : Z -> pystr)
    (client : TelegramClient) (limit : Z) (mk : pystr -> DigestItem) :
  In mk (expected_items strftime_local client limit) ->
  forall s, text (mk s) <> [].
Proof.
  unfold expected_items. intros Hin s. apply in_flat_map in Hin.
  destruct Hin as (dialog & _ & Hin). apply in_map_iff in Hin.
  destruct Hin as ([entity msg] & <- & Hcm). unfold dialog_messages in Hcm.
  destruct (dlg_entity dialog) as [e|]; [|now elim Hcm].
  destruct (dlg_unread_count dialog <=? 0)%Z; [now elim Hcm|].
  apply in_map_iff in Hcm. destruct Hcm as (m & Hm & Hin).
  injection Hm as -> ->. apply in_rev, filter_In in Hin.
  destruct Hin as [_ Hq]. unfold qualifying in Hq.
  apply andb_prop in Hq. destruct Hq as [_ Hq].
  cbn [item_of text snd]. now apply first_truthy_nonempty.
Qed.

Lemma items_texts (items : list DigestItem)
    (expected : list (pystr -> DigestItem)) :
  Forall2 (fun item mk => item = mk (summary item)) items expected ->
  (forall mk, In mk expected -> forall s, text (mk s) <> []) ->
  Forall (fun item => text item <> []) items.
Proof.
  intros H. induction H as [|item mk items' exp' Hitem _ IH]; intros Ht;
    constructor.
  - rewrite Hitem. apply Ht. now left.
  - apply IH. intros mk' Hin. apply Ht. now right.
Qed.

Section RunTheorems.
Variable net : nat -> request -> net_outcome.
Variable getenv : pystr -> option pystr.
Variable strftime_local : Z -> pystr.




End RunTheorems.


(* ================================================================= *)
(** ** More on the notification *)

Lemma grouped_append_items (grouped : groups) (key : pystr) (x : DigestItem) :
  Permutation (flat_map snd (grouped_append grouped key x))
              (flat_map snd grouped ++ [x]).
Proof.
  induction grouped as [|[k v] rest IH]; simpl; [reflexivity|].
  destruct (pystr_eqb k key); simpl.
  - rewrite <- !app_assoc. apply Permutation_app_head, Permutation_app_comm.
  - rewrite <- app_assoc. now apply Permutation_app_head.
Qed.

(** X21: the dictionary the renderer fills holds every item it is given
    exactly once: grouping neither loses nor repeats an item. *)
Theorem grouped_items_permutation (l : list DigestItem) :
  Permutation
    (flat_map snd
       (fold_left (fun grouped item =>
                     grouped_append grouped (channel_title item) item) l []))
    l.
Proof.
  induction l as [|x l' IH] using rev_ind; [reflexivity|].
  rewrite fold_left_app. cbn [fold_left].
  rewrite grouped_append_items. now apply Permutation_app_tail.
Qed.

Lemma join_head (sep x : pystr) (rest : list pystr) :
  exists tail, join sep (x :: rest) = x ++ tail.
Proof.
  destruct rest as [|y rest'].
  - exists []. simpl. now rewrite app_nil_r.
  - exists (sep ++ join sep (y :: rest')). reflexivity.
Qed.

(** X22: the notification of a list that is not empty starts with the
    header; the notification is the "no unread messages" sentinel exactly
    when the list is empty, whatever [max_items] is. *)
Theorem build_digest_message_sentinel_iff
    (items : list DigestItem) (max_items : Z) :
  (build_digest_message items max_items = NO_UNREAD <-> items = [])
  /\ (items <> [] ->
      startswith HEADER (build_digest_message items max_items) = true).
Proof.
  assert (Hhead : items <> [] ->
                  startswith HEADER (build_digest_message items max_items)
                  = true).
  { intros Hne. rewrite (build_digest_message_eq items max_items Hne).
    unfold digest_lines. cbn [app].
    destruct (join_head NEWLINE HEADER
                (flat_map render_group
                   (groups_by_title (slice_to max_items items))
                 ++ if (Z.of_nat (length items) >? max_items)%Z
                    then [omitted_note (Z.of_nat (length items) - max_items)]
                    else [])) as (tail & ->).
    apply startswith_app. }
  split; [|exact Hhead]. split.
  - intros E. destruct items as [|i0 rest]; [reflexivity|].
    assert (Hne : i0 :: rest <> []) by discriminate.
    specialize (Hhead Hne). rewrite E in Hhead.
    vm_compute in Hhead. discriminate.
  - intros ->. reflexivity.
Qed.

(** X23: with a negative [max_items] and a list that is not empty, the
    last [-max_items] items are left out (all of them when the list is that
    short), and the note is always there and states
    [length - max_items] items, which is more than were left out. *)
Theorem build_digest_message_negative_cap
    (items : list DigestItem) (max_items : Z) :
  (max_items < 0)%Z ->
  items <> [] ->
  build_digest_message items max_items
  = join NEWLINE
      (digest_lines (firstn (length items - Z.to_nat (- max_items)) items)
       ++ [omitted_note (Z.of_nat (length items) - max_items)])
  /\ (Z.of_nat (length items)
      - Z.of_nat (length (firstn (length items - Z.to_nat (- max_items))
                                 items))
      < Z.of_nat (length items) - max_items)%Z.
Proof.
  intros Hneg Hne. split.
  - rewrite (build_digest_message_eq items max_items Hne).
    unfold slice_to. apply Z.ltb_lt in Hneg. rewrite Hneg.
    apply Z.ltb_lt in Hneg.
    destruct (Z.of_nat (length items) >? max_items)%Z eqn:E; [reflexivity|].
    rewrite Z.gtb_ltb in E. apply Z.ltb_ge in E. lia.
  - rewrite length_firstn.
    destruct items as [|i0 rest]; [now elim Hne|]. simpl length. lia.
Qed.

Lemma build_digest_message_negative_cap_witness :
  (-1 < 0)%Z
  /\ sample_items <> []
  /\ build_digest_message sample_items (-1)
     = join NEWLINE
         (digest_lines
            (firstn (length sample_items - Z.to_nat (- (-1))) sample_items)
          ++ [omitted_note (Z.of_nat (length sample_items) - (-1))]).
Proof.
  assert (H0 : (-1 < 0)%Z) by reflexivity.
  assert (H1 : sample_items <> []) by discriminate.
  split; [exact H0|]. split; [exact H1|].
  exact (proj1 (build_digest_message_negative_cap sample_items (-1) H0 H1)).
Defined.

Example negative_cap_note :
  omitted_note (Z.of_nat (length sample_items) - (-1))
  = NEWLINE ++ utf8 "…외 4건은 HTML/JSON 파일을 확인하세요."
  /\ length (firstn (length sample_items - Z.to_nat (- (-1))) sample_items)
     = 2%nat.
Proof. split; vm_compute; reflexivity. Qed.

Lemma slice_to_map {A B} (f : A -> B) (n : Z) (l : list A) :
  slice_to n (map f l) = map f (slice_to n l).
Proof.
  unfold slice_to. rewrite length_map.
  destruct (n <? 0)%Z; apply firstn_map.
Qed.

Lemma filter_has_title_scrub (t : pystr) (l : list DigestItem) :
  filter (has_title t) (map scrub l) = map scrub (filter (has_title t) l).
Proof.
  induction l as [|a l' IH]; [reflexivity|].
  simpl. change (has_title t (scrub a)) with (has_title t a).
  destruct (has_title t a); simpl; now rewrite IH.
Qed.

Lemma enumerate_map {A B} (f : A -> B) (l : list A) (start : Z) :
  enumerate start (map f l)
  = map (fun p => (fst p, f (snd p))) (enumerate start l).
Proof.
  revert start. induction l as [|a l' IH]; intros start; [reflexivity|].
  simpl. now rewrite IH.
Qed.

Lemma render_group_scrub (t : pystr) (its : list DigestItem) :
  render_group (t, map scrub its) = render_group (t, its).
Proof.
  unfold render_group. cbn [fst snd]. f_equal.
  rewrite enumerate_map.
  induction (enumerate 1 its) as [|p ps IH]; [reflexivity|].
  simpl. now rewrite IH.
Qed.

Lemma digest_lines_scrub (l : list DigestItem) :
  digest_lines (map scrub l) = digest_lines l.
Proof.
  unfold digest_lines, groups_by_title. f_equal.
  rewrite map_map. change (fun x => channel_title (scrub x)) with channel_title.
  induction (first_seen (map channel_title l)) as [|t ts IH]; [reflexivity|].
  cbn [map flat_map]. rewrite IH, filter_has_title_scrub.
  now rewrite render_group_scrub.
Qed.

(** X24: the notification shows nothing of an item but its title, its
    summary and its link: channel id, message id, date and text make no
    difference. *)
Theorem build_digest_message_scrub (items : list DigestItem) (max_items : Z) :
  build_digest_message (map scrub items) max_items
  = build_digest_message items max_items.
Proof.
  destruct items as [|i0 rest] eqn:Ei; [reflexivity|]. rewrite <- Ei.
  assert (Hne : items <> []) by (rewrite Ei; discriminate).
  assert (Hne' : map scrub items <> [])
    by (rewrite Ei; discriminate).
  rewrite (build_digest_message_eq _ max_items Hne),
    (build_digest_message_eq _ max_items Hne').
  now rewrite slice_to_map, digest_lines_scrub, length_map.
Qed.

(* ================================================================= *)
(** ** Posting the notification *)

(** X25: when the bot token or the target chat id is missing from the
    environment or empty, [post_via_bot] raises [ValueError] and sends
    nothing. *)
Theorem post_via_bot_missing_credentials
    (getenv : pystr -> option pystr)
    (bot_net : nat -> bot_request -> bot_outcome)
    (message : pystr) (sent : list bot_request) :
  truthy (getenv (utf8 "TG_BOT_TOKEN")) = false
  \/ truthy (getenv (utf8 "TG_TARGET_CHAT_ID")) = false ->
  post_via_bot getenv bot_net message sent
  = (BotRaised
       (ValueError
          (utf8 "TG_BOT_TOKEN and TG_TARGET_CHAT_ID are required for --post")),
     sent).
Proof.
  intros H. unfold post_via_bot.
  destruct H as [-> | ->]; [reflexivity|].
  now rewrite orb_true_r.
Qed.

Lemma post_via_bot_missing_credentials_witness :
  (truthy (empty_env (utf8 "TG_BOT_TOKEN")) = false
   \/ truthy (empty_env (utf8 "TG_TARGET_CHAT_ID")) = false)
  /\ post_via_bot empty_env bot_ok (utf8 "hello") []
     = (BotRaised
          (ValueError
             (utf8 "TG_BOT_TOKEN and TG_TARGET_CHAT_ID are required for --post")),
        []).
Proof.
  assert (H : truthy (empty_env (utf8 "TG_BOT_TOKEN")) = false
              \/ truthy (empty_env (utf8 "TG_TARGET_CHAT_ID")) = false)
    by (left; reflexivity).
  split; [exact H|].
  exact (post_via_bot_missing_credentials empty_env bot_ok (utf8 "hello") [] H).
Defined.

(** X26: with both credentials, [post_via_bot] sends exactly one request,
    which carries the message unchanged with parse mode [HTML], and it
    returns normally exactly when the endpoint answers with a status
    outside 400..599; there is no second attempt. *)
Theorem post_via_bot_once
    (getenv : pystr -> option pystr)
    (bot_net : nat -> bot_request -> bot_outcome)
    (message : pystr) (sent : list bot_request) :
  truthy (getenv (utf8 "TG_BOT_TOKEN")) = true ->
  truthy (getenv (utf8 "TG_TARGET_CHAT_ID")) = true ->
  exists req,
    snd (post_via_bot getenv bot_net message sent) = sent ++ [req]
    /\ bot_text req = message
    /\ bot_parse_mode req = utf8 "HTML"
    /\ bot_chat_id req = or_empty (getenv (utf8 "TG_TARGET_CHAT_ID"))
    /\ (fst (post_via_bot getenv bot_net message sent) = BotDone
        <-> exists status,
              bot_net (length sent) req = BotResponded status
              /\ ((400 <=? status) && (status <? 600))%Z = false).
Proof.
  intros Ht Hc. unfold post_via_bot. rewrite Ht, Hc. cbn [negb orb].
  exists (send_message_request getenv message).
  change {| bot_url := _; bot_chat_id := _; bot_text := _;
            bot_parse_mode := _; bot_disable_web_page_preview := _;
            bot_timeout := _ |}
    with (send_message_request getenv message).
  split; [|split; [|split; [|split]]].
  2, 3, 4: reflexivity.
  - destruct (bot_net (length sent) _) as [|status]; [reflexivity|].
    destruct ((400 <=? status)%Z && (status <? 600)%Z); reflexivity.
  - destruct (bot_net (length sent) _) as [|status] eqn:E.
    + split; [discriminate|]. intros (status & H & _). discriminate.
    + destruct ((400 <=? status)%Z && (status <? 600)%Z) eqn:Es.
      * split; [discriminate|]. intros (st & H & Hs).
        injection H as <-. rewrite Es in Hs. discriminate.
      * split; [|reflexivity]. intros _. exists status. split; [reflexivity|exact Es].
Qed.

Lemma post_via_bot_once_witness :
  exists req,
    snd (post_via_bot bot_env bot_ok (utf8 "hello") []) = [] ++ [req]
    /\ bot_text req = utf8 "hello"
    /\ bot_parse_mode req = utf8 "HTML"
    /\ bot_chat_id req = or_empty (bot_env (utf8 "TG_TARGET_CHAT_ID"))
    /\ (fst (post_via_bot bot_env bot_ok (utf8 "hello") []) = BotDone
        <-> exists status,
              bot_ok (length (@nil bot_request)) req = BotResponded status
              /\ ((400 <=? status) && (status <? 600))%Z = false).
Proof.
  apply (post_via_bot_once bot_env bot_ok (utf8 "hello") []);
    vm_compute; reflexivity.
Defined.

(* ================================================================= *)
(** ** Report rendering *)

Lemma drop_while_app_nonempty (p : char -> bool) (h rest : pystr) :
  drop_while p h <> [] -> drop_while p (h ++ rest) = drop_while p h ++ rest.
Proof.
  induction h as [|c t IH]; simpl; [intros H; now elim H|].
  destruct (p c); [exact IH | reflexivity].
Qed.

Lemma rstrip_by_app_nonempty (p : char -> bool) (x t : pystr) :
  rstrip_by p t <> [] -> rstrip_by p (x ++ t) = x ++ rstrip_by p t.
Proof.
  unfold rstrip_by. intros H. rewrite rev_app_distr.
  rewrite drop_while_app_nonempty.
  - now rewrite rev_app_distr, rev_involutive.
  - intros E. apply H. now rewrite E.
Qed.

(** Stripping a text that is padded by its first and last part. *)
Lemma strip_pad (h mid t : pystr) :
  lstrip_by is_space h <> [] -> rstrip_by is_space t <> [] ->
  strip (h ++ mid ++ t)
  = lstrip_by is_space h ++ mid ++ rstrip_by is_space t.
Proof.
  intros Hh Ht. unfold strip, strip_by, lstrip_by in *.
  rewrite (drop_while_app_nonempty _ _ _ Hh).
  rewrite app_assoc, (rstrip_by_app_nonempty _ _ _ Ht).
  now rewrite <- app_assoc.
Qed.

Lemma strip_card_template (p0 a p1 b p2 c p3 d p4 e p5 : pystr) :
  lstrip_by is_space p0 <> [] -> rstrip_by is_space p5 <> [] ->
  strip (p0 ++ a ++ p1 ++ b ++ p2 ++ c ++ p3 ++ d ++ p4 ++ e ++ p5)
  = lstrip_by is_space p0 ++ a ++ p1 ++ b ++ p2 ++ c ++ p3 ++ d ++ p4 ++ e
    ++ rstrip_by is_space p5.
Proof.
  intros H0 H5.
  replace (p0 ++ a ++ p1 ++ b ++ p2 ++ c ++ p3 ++ d ++ p4 ++ e ++ p5)
    with (p0 ++ (a ++ p1 ++ b ++ p2 ++ c ++ p3 ++ d ++ p4 ++ e) ++ p5)
    by (now rewrite <- !app_assoc).
  rewrite (strip_pad _ _ _ H0 H5). now rewrite <- !app_assoc.
Qed.

Lemma strip_page_template (p0 g p1 body p2 : pystr) :
  lstrip_by is_space p0 <> [] -> rstrip_by is_space p2 <> [] ->
  strip (p0 ++ g ++ p1 ++ body ++ p2)
  = lstrip_by is_space p0 ++ g ++ p1 ++ body ++ rstrip_by is_space p2.
Proof.
  intros H0 H2.
  replace (p0 ++ g ++ p1 ++ body ++ p2)
    with (p0 ++ (g ++ p1 ++ body) ++ p2) by (now rewrite <- !app_assoc).
  rewrite (strip_pad _ _ _ H0 H2). now rewrite <- !app_assoc.
Qed.

(** Stripping a card removes the indentation of the template and nothing
    of the item. *)
Lemma render_card_core (item : DigestItem) : render_card item = card_core item.
Proof.
  unfold render_card, card_core, report_summary, CARD_OPEN, CARD_CLOSE.
  apply strip_card_template; vm_compute; discriminate.
Qed.

Lemma render_html_core (items : list DigestItem) (generated : pystr) :
  render_html items generated
  = PAGE_OPEN ++ generated ++ PAGE_PART_1
    ++ match join NEWLINE (map render_card items) with
       | [] => NO_CARDS
       | _ :: _ => join NEWLINE (map render_card items)
       end
    ++ PAGE_CLOSE.
Proof.
  unfold render_html, PAGE_OPEN, PAGE_CLOSE.
  apply strip_page_template; vm_compute; discriminate.
Qed.

Lemma contains_infix (s x : pystr) :
  contains s x = true <-> exists pre post, s = pre ++ x ++ post.
Proof.
  split.
  - induction s as [|c t IH]; rewrite contains_unfold; intros H;
      apply orb_prop in H.
    + destruct H as [H|H]; [|discriminate].
      exists [], []. destruct x; [reflexivity | discriminate].
    + destruct H as [H|H].
      * exists [], (skipn (length x) (c :: t)). now apply startswith_skipn.
      * destruct (IH H) as (pre & post & ->). now exists (c :: pre), post.
  - intros (pre & post & ->). apply contains_app.
Qed.

Lemma contains_trans (s y x : pystr) :
  contains s y = true -> contains y x = true -> contains s x = true.
Proof.
  rewrite !contains_infix. intros (p1 & q1 & ->) (p2 & q2 & ->).
  exists (p1 ++ p2), (q2 ++ q1). now rewrite <- !app_assoc.
Qed.

Lemma contains_wrap (pre s post x : pystr) :
  contains s x = true -> contains (pre ++ s ++ post) x = true.
Proof.
  intros H. apply (contains_trans _ s); [apply contains_app | exact H].
Qed.

Lemma clash_startswith (x s rest : pystr) :
  clash x s = true -> startswith x (s ++ rest) = false.
Proof.
  revert s. induction x as [|a x' IH]; intros s H; [discriminate|].
  destruct s as [|b s']; [discriminate|]. simpl in *.
  destruct (a =? b); simpl in *; [now apply IH | reflexivity].
Qed.

Lemma sealed_contains (x s rest : pystr) :
  sealed x s = true -> contains (s ++ rest) x = contains rest x.
Proof.
  induction s as [|c t IH]; intros H; [reflexivity|].
  simpl in H. apply andb_prop in H. destruct H as [Hc Ht].
  rewrite contains_unfold. cbn [app].
  change (c :: t ++ rest) with ((c :: t) ++ rest).
  rewrite (clash_startswith _ _ _ Hc). simpl. now apply IH.
Qed.

Lemma sealed_without_head (a : char) (xs g : pystr) :
  forallb (fun c => negb (c =? a)) g = true -> sealed (a :: xs) g = true.
Proof.
  induction g as [|c t IH]; intros H; [reflexivity|].
  simpl in H. apply andb_prop in H. destruct H as [Hc Ht].
  simpl. rewrite (IH Ht), N.eqb_sym, Hc. reflexivity.
Qed.

Lemma startswith_prefix (x a rest : pystr) :
  startswith x a = true -> startswith x (a ++ rest) = true.
Proof.
  intros H. rewrite (startswith_skipn _ _ H), <- app_assoc.
  apply startswith_app.
Qed.

Lemma card_core_article (item : DigestItem) :
  contains (card_core item) ARTICLE = true.
Proof.
  rewrite contains_unfold. unfold card_core.
  rewrite startswith_prefix; [reflexivity|]. vm_compute. reflexivity.
Qed.

Lemma cards_body (item : DigestItem) (rest : list DigestItem) :
  match join NEWLINE (map render_card (item :: rest)) with
  | [] => NO_CARDS
  | _ :: _ => join NEWLINE (map render_card (item :: rest))
  end = join NEWLINE (map render_card (item :: rest)).
Proof.
  destruct (join NEWLINE (map render_card (item :: rest))) eqn:E;
    [|reflexivity].
  exfalso. revert E. apply join_nonempty; [discriminate|].
  apply Forall_forall. intros x Hx. apply in_map_iff in Hx.
  destruct Hx as (it & <- & _). rewrite render_card_core.
  unfold card_core. intros E.
  assert (Ho : exists c r, CARD_OPEN = c :: r) by (vm_compute; eauto).
  destruct Ho as (c & r & Ho). rewrite Ho in E. discriminate.
Qed.

(** X27: when the formatted time holds no [<], the report holds a card
    marker exactly when there is at least one item; the report of no item
    holds the "nothing to show" placeholder instead. *)
Theorem render_html_cards (items : list DigestItem) (generated : pystr) :
  forallb (fun c => negb (c =? 60)) generated = true ->
  (contains (render_html items generated) ARTICLE = true <-> items <> [])
  /\ (items = [] -> contains (render_html items generated) NO_CARDS = true).
Proof.
  intros Hg. rewrite render_html_core. destruct items as [|item rest].
  - cbn [map join]. split.
    + split; [|intros H; now elim H]. intros H. exfalso.
      rewrite (sealed_contains ARTICLE PAGE_OPEN) in H
        by (vm_compute; reflexivity).
      rewrite (sealed_contains ARTICLE generated) in H
        by (apply sealed_without_head; exact Hg).
      vm_compute in H. discriminate.
    + intros _. rewrite !app_assoc. rewrite <- (app_assoc _ NO_CARDS).
      apply contains_app.
  - rewrite cards_body. split; [|discriminate].
    split; [discriminate|]. intros _.
    rewrite !app_assoc. rewrite <- (app_assoc _ (join _ _)).
    apply contains_wrap.
    apply (contains_trans _ (render_card item)).
    + apply contains_join. now left.
    + rewrite render_card_core. apply card_core_article.
Qed.

Lemma render_html_cards_witness :
  forallb (fun c => negb (c =? 60)) (utf8 "2024-01-01 09:00:00") = true
  /\ (contains (render_html sample_items (utf8 "2024-01-01 09:00:00")) ARTICLE
      = true <-> sample_items <> []).
Proof.
  assert (H : forallb (fun c => negb (c =? 60)) (utf8 "2024-01-01 09:00:00")
              = true) by (vm_compute; reflexivity).
  split; [exact H|].
  exact (proj1 (render_html_cards sample_items (utf8 "2024-01-01 09:00:00") H)).
Defined.

Lemma endswith_split (l a : pystr) :
  endswith l a = true -> exists a', a = a' ++ l.
Proof.
  unfold endswith. intros H. apply startswith_skipn in H.
  exists (rev (skipn (length (rev l)) (rev a))).
  rewrite <- (rev_involutive a), H at 1.
  now rewrite rev_app_distr, rev_involutive.
Qed.

Lemma contains_skip (a s y : pystr) :
  contains s y = true -> contains (a ++ s) y = true.
Proof.
  intros H. rewrite <- (app_nil_r s). now apply contains_wrap.
Qed.

(** A field that stands between two parts of a template stands between
    the end of the one and the start of the other. *)
Lemma contains_between (l r a b x post : pystr) :
  endswith l a = true -> startswith r b = true ->
  contains (a ++ x ++ b ++ post) (l ++ x ++ r) = true.
Proof.
  intros Ha Hb. destruct (endswith_split _ _ Ha) as (a' & ->).
  rewrite (startswith_skipn _ _ Hb). apply contains_infix.
  exists a', (skipn (length r) b ++ post). now rewrite <- !app_assoc.
Qed.

Lemma contains_between_end (l r a b x : pystr) :
  endswith l a = true -> startswith r b = true ->
  contains (a ++ x ++ b) (l ++ x ++ r) = true.
Proof.
  intros Ha Hb. rewrite <- (app_nil_r b). now apply contains_between.
Qed.

Lemma replace_char_removes (old : char) (new s : pystr) :
  ~ In old new -> ~ In old (replace_char old new s).
Proof.
  intros Hnew. unfold replace_char. intros H. apply in_flat_map in H.
  destruct H as (c & _ & Hc). destruct (c =? old) eqn:E; [now apply Hnew|].
  destruct Hc as [<-|[]]. rewrite N.eqb_refl in E. discriminate.
Qed.

Lemma render_html_card (items : list DigestItem) (generated : pystr)
    (item : DigestItem) :
  In item items ->
  contains (render_html items generated) (card_core item) = true.
Proof.
  intros Hin. rewrite render_html_core.
  destruct items as [|i0 rest]; [now elim Hin|]. rewrite cards_body.
  rewrite !app_assoc. rewrite <- (app_assoc _ (join _ _)).
  apply contains_wrap. rewrite <- render_card_core.
  apply contains_join. now apply in_map.
Qed.

(** X28: for every item, the report holds the title and the full text
    HTML-escaped, the summary HTML-escaped with every line feed turned into
    a line break, and the date and the link as they are, not escaped. *)
Theorem render_html_fields (items : list DigestItem) (generated : pystr)
    (item : DigestItem) :
  In item items ->
  contains (render_html items generated)
           (utf8 "<h3>" ++ html_escape (channel_title item) ++ utf8 "</h3>")
  = true
  /\ contains (render_html items generated)
              (utf8 "<p>" ++ date item ++ utf8 "</p>") = true
  /\ contains (render_html items generated)
              (utf8 "<br>" ++ report_summary item ++ utf8 "</p>") = true
  /\ ~ In 10 (report_summary item)
  /\ contains (render_html items generated)
              (utf8 "<pre>" ++ html_escape (text item) ++ utf8 "</pre>")
     = true
  /\ contains (render_html items generated)
              (utf8 "<a href=" ++ QUOTE ++ message_link item ++ QUOTE) = true.
Proof.
  intros Hin.
  pose proof (render_html_card items generated item Hin) as Hcard.
  assert (Hfield : forall y, contains (card_core item) y = true ->
                             contains (render_html items generated) y = true)
    by (intros y; apply contains_trans; exact Hcard).
  unfold card_core in Hfield.
  split; [|split; [|split; [|split; [|split]]]].
  - apply Hfield. apply contains_between; vm_compute; reflexivity.
  - apply Hfield. do 2 apply contains_skip.
    apply contains_between; vm_compute; reflexivity.
  - apply Hfield. do 4 apply contains_skip.
    apply contains_between; vm_compute; reflexivity.
  - apply replace_char_removes. vm_compute. intuition discriminate.
  - apply Hfield. do 6 apply contains_skip.
    apply contains_between; vm_compute; reflexivity.
  - apply Hfield. do 8 apply contains_skip.
    replace (utf8 "<a href=" ++ QUOTE ++ message_link item ++ QUOTE)
      with ((utf8 "<a href=" ++ QUOTE) ++ message_link item ++ QUOTE)
      by (now rewrite <- app_assoc).
    apply (contains_between_end (utf8 "<a href=" ++ QUOTE) QUOTE);
      vm_compute; reflexivity.
Qed.

Lemma render_html_fields_witness :
  In markup_item [markup_item]
  /\ contains (render_html [markup_item] (utf8 "2024-01-01 09:00:00"))
              (utf8 "<a href=" ++ QUOTE ++ message_link markup_item ++ QUOTE)
     = true.
Proof.
  assert (H : In markup_item [markup_item]) by (left; reflexivity).
  split; [exact H|].
  exact (proj2 (proj2 (proj2 (proj2 (proj2
           (render_html_fields [markup_item] (utf8 "2024-01-01 09:00:00")
              markup_item H)))))).
Defined.

(* ================================================================= *)
(** ** A run without the remote service *)

Lemma normalize_text_idem (x : option pystr) :
  normalize_text (Some (normalize_text x)) = normalize_text x.
Proof.
  pose proof (normalize_text_single_spaced x) as Hs.
  rewrite (normalize_text_squeeze (Some _)). simpl or_empty.
  rewrite (strip_fixed _ (normalize_text_starts x) (single_spaced_ends _ Hs)).
  now apply single_spaced_squeeze.
Qed.

Lemma offline_summary_format (text : pystr) :
  offline_summary text = NO_TEXT
  \/ (Forall (fun line => startswith BULLET line = true
                          /\ (length line <= 222)%nat)
             (text_lines (offline_summary text))
      /\ (1 <= length (text_lines (offline_summary text)) <= 3)%nat).
Proof.
  unfold offline_summary.
  destruct (nonempty (normalize_text (Some text))); [right | now left].
  set (cleaned := normalize_text (Some text)).
  assert (Hnl : ~ In 10 cleaned)
    by (apply normalized_no_newline, normalize_text_idem).
  assert (H3 : (1 <= 3)%Z) by lia.
  rewrite (summarize_locally_lines cleaned 3 Hnl H3). split.
  - apply Forall_forall. intros line Hline. apply in_map_iff in Hline.
    destruct Hline as (s & <- & _). split; [reflexivity|].
    rewrite length_app. pose proof (firstn_le_length 220 s).
    change (length BULLET) with 2%nat. lia.
  - rewrite length_map.
    pose proof (selected_fragments_nonempty cleaned 3 H3) as Hne.
    match goal with |- (1 <= ?n <= 3)%nat => set (n0 := n) end.
    assert (Hle : (Z.of_nat n0 <= 3)%Z)
      by (unfold n0, selected_fragments; apply slice_to_length; lia).
    assert (Hpos : (1 <= n0)%nat)
      by (unfold n0; destruct (selected_fragments cleaned 3);
          [now elim Hne | simpl; lia]).
    lia.
Qed.


